(** * Lecture feedback tool: session registry and event coordinator

    A shallow embedding of the server side of the lecture feedback tool:
    - [Registry] embeds [sessions.js], the in-memory session store
      ([sessions], [socketToSession]) and its mutation API;
    - [Coordinator] embeds the socket event handlers of [index.js],
      including the per-socket feedback throttle;
    - [Client] embeds the handlers of [App.jsx] and [JoinPage.jsx] and the
      chart data of [TeacherView.jsx].

    JavaScript [Map]s are finite maps ([gmap]) keyed by strings.  A [Map]
    iterates in insertion order; the two loops of the registry that iterate
    ([getAggregate], [endSession]) are shown below to be independent of the
    order, so the order is not part of the model.  Timestamps ([Date.now()])
    are integers.  The source of randomness ([Math.random]) is an explicit
    list of draws. *)

From Stdlib Require Import ZArith Sorted.
From stdpp Require Import gmap strings list fin_maps.

Open Scope string_scope.

(** ** sessions.js *)
Module Registry.

(** [const FEEDBACK_LEVELS = ["gotit", "neutral", "confused", "lost"]] *)
Definition FEEDBACK_LEVELS : list string :=
  ["gotit"; "neutral"; "confused"; "lost"].

(** The [role] field of a reverse-index entry: the code only ever writes
    the literals ["teacher"] and ["student"]. *)
Inductive role := teacher | student.

#[global] Instance role_eq_dec : EqDecision role.
Proof. solve_decision. Defined.

(** A value of [sessions]:
    [{ teacherSocketId, clients: Map<socketId, feedbackLevel>, createdAt }]. *)
Record session := Session {
  teacherSocketId : string;
  clients : gmap string string;
  createdAt : Z
}.

(** A value of [socketToSession]: [{ code, role }]. *)
Record info := Info {
  code : string;
  role_of : role
}.

#[global] Instance info_eq_dec : EqDecision info.
Proof. solve_decision. Defined.

(** The two module-level stores. *)
Record state := State {
  sessions : gmap string session;
  socketToSession : gmap string info
}.

Definition empty_state : state := State ∅ ∅.

(** *** Session code generation *)

(** [const chars = "ABCDEFGHJKLMNPQRSTUVWXYZ23456789"] *)
Definition chars : string := "ABCDEFGHJKLMNPQRSTUVWXYZ23456789".

(** [code += chars[i]]: indexing a string out of range yields [undefined],
    which [+=] appends as the text ["undefined"]. *)
Definition char_at (s : string) (i : nat) : string :=
  match String.get i s with
  | Some c => String c ""
  | None => "undefined"
  end.

(** The inner [for] loop of [generateCode].  One element of [rnd] is one
    value of [Math.floor(Math.random() * chars.length)]; [None] means the
    draws ran out before the loop finished. *)
Fixpoint draw_code (n : nat) (rnd : list nat) (acc : string)
  : option (string * list nat) :=
  match n with
  | 0 => Some (acc, rnd)
  | S n' =>
      match rnd with
      | [] => None
      | r :: rnd' => draw_code n' rnd' (acc +:+ char_at chars r)
      end
  end.

(** The [do ... while (sessions.has(code))] loop.  Every iteration uses six
    draws, so [fuel] bounds the number of iterations. *)
Fixpoint generateCode_loop (fuel : nat) (rnd : list nat)
    (ss : gmap string session) : option string :=
  match fuel with
  | 0 => None
  | S fuel' =>
      match draw_code 6 rnd "" with
      | None => None
      | Some (c, rnd') =>
          if bool_decide (is_Some (ss !! c))
          then generateCode_loop fuel' rnd' ss
          else Some c
      end
  end.

(** [generateCode()]: with [S (length rnd)] iterations allowed the loop can
    only stop without a code because the draws are exhausted. *)
Definition generateCode (rnd : list nat) (ss : gmap string session)
  : option string :=
  generateCode_loop (S (length rnd)) rnd ss.

(** *** Session CRUD *)

Definition createSession (teacherId : string) (rnd : list nat) (now : Z)
    (st : state) : option (string * state) :=
  match generateCode rnd (sessions st) with
  | None => None
  | Some c =>
      Some (c,
            State (<[c := Session teacherId ∅ now]> (sessions st))
                  (<[teacherId := Info c teacher]> (socketToSession st)))
  end.

Definition sessionExists (c : string) (st : state) : bool :=
  bool_decide (is_Some (sessions st !! c)).

Definition addStudent (c socketId : string) (st : state) : bool * state :=
  match sessions st !! c with
  | None => (false, st)
  | Some s =>
      (true,
       State (<[c := Session (teacherSocketId s)
                             (<[socketId := "neutral"]> (clients s))
                             (createdAt s)]> (sessions st))
             (<[socketId := Info c student]> (socketToSession st)))
  end.

(** [level] comes from the client.  [FEEDBACK_LEVELS.includes(level)]
    compares without coercion, so a value that is not a string is turned
    down like a string that is not in the list; levels are strings here. *)
Definition updateFeedback (c socketId level : string) (st : state)
  : bool * state :=
  if bool_decide (level ∈ FEEDBACK_LEVELS) then
    match sessions st !! c with
    | None => (false, st)
    | Some s =>
        if bool_decide (is_Some (clients s !! socketId)) then
          (true,
           State (<[c := Session (teacherSocketId s)
                                 (<[socketId := level]> (clients s))
                                 (createdAt s)]> (sessions st))
                 (socketToSession st))
        else (false, st)
    end
  else (false, st).

(** A JavaScript number as it can occur in the [counts] object. *)
Inductive jsnum := Num (n : nat) | NaN.

#[global] Instance jsnum_eq_dec : EqDecision jsnum.
Proof. solve_decision. Defined.

(** [counts[level]++]: a property that [counts] does not have reads as
    [undefined], whose increment is [NaN]. *)
Definition bump (counts : gmap string jsnum) (level : string)
  : gmap string jsnum :=
  <[level := match counts !! level with
             | Some (Num n) => Num (S n)
             | _ => NaN
             end]> counts.

(** [const counts = { gotit: 0, neutral: 0, confused: 0, lost: 0 }] *)
Definition counts0 : gmap string jsnum :=
  <["gotit" := Num 0]> (<["neutral" := Num 0]>
    (<["confused" := Num 0]> (<["lost" := Num 0]> ∅))).

(** [session.clients.values()] *)
Definition values (m : gmap string string) : list string :=
  (map_to_list m).*2.

(** [session.clients.keys()] *)
Definition keys (m : gmap string string) : list string :=
  (map_to_list m).*1.

Definition count_levels (ls : list string) : gmap string jsnum :=
  foldl bump counts0 ls.

Definition getAggregate (c : string) (st : state)
  : option (gmap string jsnum) :=
  match sessions st !! c with
  | None => None
  | Some s =>
      Some (<["total" := Num (size (clients s))]>
              (count_levels (values (clients s))))
  end.

Definition getSession (c : string) (st : state) : option session :=
  sessions st !! c.

Definition removeSocket (socketId : string) (st : state)
  : option info * state :=
  match socketToSession st !! socketId with
  | None => (None, st)
  | Some i =>
      let ss :=
        match sessions st !! code i with
        | Some s =>
            match role_of i with
            | student =>
                <[code i := Session (teacherSocketId s)
                                    (delete socketId (clients s))
                                    (createdAt s)]> (sessions st)
            | teacher => sessions st
            end
        | None => sessions st
        end in
      (Some i, State ss (delete socketId (socketToSession st)))
  end.

(** The loop [for (const socketId of session.clients.keys())
    socketToSession.delete(socketId)]. *)
Definition delete_keys (ks : list string) (m : gmap string info)
  : gmap string info :=
  foldl (λ acc k, delete k acc) m ks.

Definition endSession (c : string) (st : state) : bool * state :=
  match sessions st !! c with
  | None => (false, st)
  | Some s =>
      (true,
       State (delete c (sessions st))
             (delete_keys (keys (clients s))
                (delete (teacherSocketId s) (socketToSession st))))
  end.

End Registry.

(** ** Registry operations as a transition system *)
Module Trace.
Import Registry.

(** One call of the registry API, with its arguments. *)
Inductive op :=
| OpCreate (teacherId : string) (rnd : list nat) (now : Z)
| OpAdd (c socketId : string)
| OpUpdate (c socketId level : string)
| OpRemove (socketId : string)
| OpEnd (c : string).

(** The state after the call; [None] when [createSession] does not return
    with the given draws. *)
Definition step (o : op) (st : state) : option state :=
  match o with
  | OpCreate t rnd now => snd <$> createSession t rnd now st
  | OpAdd c i => Some (addStudent c i st).2
  | OpUpdate c i l => Some (updateFeedback c i l st).2
  | OpRemove i => Some (removeSocket i st).2
  | OpEnd c => Some (endSession c st).2
  end.

Fixpoint run (ops : list op) (st : state) : option state :=
  match ops with
  | [] => Some st
  | o :: ops' =>
      match step o st with
      | None => None
      | Some st' => run ops' st'
      end
  end.

(** States reachable from the empty registry by calls that each satisfy
    [P] in the state in which they are made. *)
Inductive reachable_under (P : op → state → Prop) : state → Prop :=
| reach_init : reachable_under P empty_state
| reach_step o st st' :
    reachable_under P st → P o st → step o st = Some st' →
    reachable_under P st'.

(** States reachable by any sequence of registry calls. *)
Definition reachable : state → Prop := reachable_under (λ _ _, True).

End Trace.

(** ** index.js: the socket event handlers *)
Module Coordinator.
Import Registry.

(** [const THROTTLE_MS = 500] *)
Definition THROTTLE_MS : Z := 500.

(** Server-to-client messages. [aggregateUpdate] carries whatever
    [getAggregate] returned. *)
Inductive message :=
| SessionCreated (c : string)
| JoinedSession (c : string)
| JoinError (text : string)
| AggregateUpdate (agg : option (gmap string jsnum))
| SessionEnded.

(** What a handler asks of the transport, in program order. *)
Inductive action :=
| Join (socketId room : string)          (* socket.join(room) *)
| Emit (socketId : string) (m : message) (* socket.emit(...) *)
| EmitRoom (room : string) (m : message).  (* io.in(room).emit(...) *)

(** The registry together with [lastFeedbackTime]. *)
Record cstate := CState {
  registry : state;
  lastFeedbackTime : gmap string Z
}.

Definition init : cstate := CState empty_state ∅.

Section Handlers.

(** [(code || "").toUpperCase().trim()] on the [code] field of a payload
    ([None]: the field is absent).  The handlers are embedded for any
    behaviour of these two built-ins. *)
Variable normalize : option string → string.

Definition on_createSession (id : string) (rnd : list nat) (now : Z)
    (st : cstate) : option (cstate * list action) :=
  match createSession id rnd now (registry st) with
  | None => None
  | Some (c, r') =>
      Some (CState r' (lastFeedbackTime st),
            [Join id c; Emit id (SessionCreated c)])
  end.

Definition on_joinSession (id : string) (payload : option string)
    (st : cstate) : cstate * list action :=
  let normalizedCode := normalize payload in
  if negb (sessionExists normalizedCode (registry st)) then
    (st, [Emit id (JoinError "Invalid session code.")])
  else
    let '(added, r') := addStudent normalizedCode id (registry st) in
    if negb added then
      (CState r' (lastFeedbackTime st),
       [Emit id (JoinError "Could not join session.")])
    else
      (CState r' (lastFeedbackTime st),
       [Join id normalizedCode;
        Emit id (JoinedSession normalizedCode);
        EmitRoom normalizedCode
          (AggregateUpdate (getAggregate normalizedCode r'))]).

(** [lastFeedbackTime.get(socket.id) || 0] *)
Definition last_feedback (id : string) (st : cstate) : Z :=
  default 0%Z (lastFeedbackTime st !! id).

(** The test [now - last < THROTTLE_MS] of the feedback handler. *)
Definition throttled (id : string) (now : Z) (st : cstate) : bool :=
  (now - last_feedback id st <? THROTTLE_MS)%Z.

Definition on_feedback (id : string) (payload : option string)
    (level : string) (now : Z) (st : cstate) : cstate * list action :=
  if throttled id now st then (st, [])
  else
    let lft := <[id := now]> (lastFeedbackTime st) in
    let normalizedCode := normalize payload in
    let '(updated, r') :=
      updateFeedback normalizedCode id level (registry st) in
    if negb updated then (CState r' lft, [])
    else
      (CState r' lft,
       [EmitRoom normalizedCode
          (AggregateUpdate (getAggregate normalizedCode r'))]).

Definition on_endSession (id : string) (payload : option string)
    (st : cstate) : cstate * list action :=
  let normalizedCode := normalize payload in
  (CState (endSession normalizedCode (registry st)).2 (lastFeedbackTime st),
   [EmitRoom normalizedCode SessionEnded]).

Definition on_disconnect (id : string) (st : cstate)
  : cstate * list action :=
  let lft := delete id (lastFeedbackTime st) in
  let '(i, r') := removeSocket id (registry st) in
  (CState r' lft,
   match i with
   | Some (Info c student) =>
       match getAggregate c r' with
       | Some agg => [EmitRoom c (AggregateUpdate (Some agg))]
       | None => []
       end
   | _ => []
   end).

(** An inbound event, tagged with the socket it arrives on and with the
    values the handler reads from its environment.  [payload] is the
    [code] field of the payload object: [Some s] for a string, [None] when
    it is missing (or another falsy value, which [code || ""] treats
    alike); [level] is a string.  A delivery without a payload object, or
    with a [code] that is neither a string nor falsy, makes the handler
    throw before it touches the registry, and is not an [event]. *)
Inductive event :=
| EvCreate (id : string) (rnd : list nat) (now : Z)
| EvJoin (id : string) (payload : option string)
| EvFeedback (id : string) (payload : option string) (level : string)
    (now : Z)
| EvEnd (id : string) (payload : option string)
| EvDisconnect (id : string).

Definition handle (ev : event) (st : cstate)
  : option (cstate * list action) :=
  match ev with
  | EvCreate id rnd now => on_createSession id rnd now st
  | EvJoin id p => Some (on_joinSession id p st)
  | EvFeedback id p l now => Some (on_feedback id p l now st)
  | EvEnd id p => Some (on_endSession id p st)
  | EvDisconnect id => Some (on_disconnect id st)
  end.

(** Did this event pass the throttle test of the feedback handler on
    socket [id] (so that [updateFeedback] is called)? *)
Definition accepted (id : string) (ev : event) (st : cstate)
  : option Z :=
  match ev with
  | EvFeedback id' _ _ now =>
      if bool_decide (id' = id) && negb (throttled id now st)
      then Some now else None
  | _ => None
  end.

(** The timestamps of the feedback events of socket [id] that pass the
    throttle while the server handles [evs] one after the other.  A
    handler that does not return ends the run. *)
Fixpoint accepted_times (id : string) (evs : list event) (st : cstate)
  : list Z :=
  match evs with
  | [] => []
  | ev :: evs' =>
      match handle ev st with
      | None => []
      | Some (st', _) =>
          match accepted id ev st with
          | Some t => t :: accepted_times id evs' st'
          | None => accepted_times id evs' st'
          end
      end
  end.

End Handlers.

(** A model of the two built-ins on ASCII text, used to run the handlers
    on examples. *)
Definition upper_ascii (a : Ascii.ascii) : Ascii.ascii :=
  let n := Ascii.nat_of_ascii a in
  if (97 <=? n)%nat && (n <=? 122)%nat then Ascii.ascii_of_nat (n - 32) else a.

Definition is_space (a : Ascii.ascii) : bool :=
  let n := Ascii.nat_of_ascii a in
  ((9 <=? n)%nat && (n <=? 13)%nat) || (n =? 32)%nat.

Fixpoint trim_start (l : list Ascii.ascii) : list Ascii.ascii :=
  match l with
  | a :: l' => if is_space a then trim_start l' else l
  | [] => []
  end.

Definition ascii_normalize (payload : option string) : string :=
  let s := String.list_ascii_of_string (default "" payload) in
  let u := upper_ascii <$> s in
  String.string_of_list_ascii (reverse (trim_start (reverse (trim_start u)))).

End Coordinator.

(** ** The browser side: App.jsx, JoinPage.jsx, TeacherView.jsx

    The parts of the React components that compute: the handlers of [App]
    and of [JoinPage] as functions on the component state, and the derived
    chart data of [TeacherView].  Text is ASCII, as in [ascii_normalize]. *)
Module Client.
Import Registry Coordinator.

(** [s.toUpperCase()] on ASCII text: the letters a-z become A-Z and no
    other character below U+0080 changes. *)
Definition toUpperCase (s : string) : string :=
  String.string_of_list_ascii
    (upper_ascii <$> String.list_ascii_of_string s).

(** [s.trim()] on ASCII text: the white space below U+0080 is U+0009 to
    U+000D and U+0020.  (JavaScript also strips U+00A0, U+FEFF, the line
    separators and the other space characters of Unicode, which an ASCII
    text does not contain.) *)
Definition trim (s : string) : string :=
  String.string_of_list_ascii
    (reverse (trim_start
       (reverse (trim_start (String.list_ascii_of_string s))))).

(** The [view] state of [App]: "join" | "student" | "teacher". *)
Inductive view_t := VJoin | VStudent | VTeacher.

(** The three pieces of state of [App]. *)
Record app := App {
  view : view_t;
  sessionCode : string;
  error : string
}.

(** [useState("join")], [useState("")], [useState("")] *)
Definition app_init : app := App VJoin "" "".

(** What the browser emits on its socket. *)
Inductive request :=
| ReqCreateSession
| ReqJoinSession (c : string)
| ReqEndSession (c : string).

(** The socket listeners of [App]. *)
Definition onSessionCreated (c : string) (a : app) : app :=
  App VTeacher c "".

Definition onJoinedSession (c : string) (a : app) : app :=
  App VStudent c "".

Definition onJoinError (message : string) (a : app) : app :=
  App (view a) (sessionCode a) message.

Definition onSessionEnded (a : app) : app :=
  App VJoin "" "Session has ended.".

(** The actions [App] hands to its children. *)
Definition handleStartSession (a : app) : app * list request :=
  (App (view a) (sessionCode a) "", [ReqCreateSession]).

Definition handleJoinSession (c : string) (a : app) : app * list request :=
  (App (view a) (sessionCode a) "", [ReqJoinSession (trim (toUpperCase c))]).

Definition handleEndSession (a : app) : app * list request :=
  (App VJoin "" (error a), [ReqEndSession (sessionCode a)]).

Definition handleLeave (a : app) : app * list request :=
  (App VJoin "" (error a), []).

(** [handleSubmit] of [JoinPage], on the text [c] of its input field:
    [if (code.trim().length === 0) return; onJoin(code)]. *)
Definition handleSubmit (c : string) (a : app) : app * list request :=
  if (String.length (trim c) =? 0)%nat then (a, [])
  else handleJoinSession c a.

(** What can happen to [App]: a message from the server, or a use of a
    control.  A control exists only in the view that renders it. *)
Inductive app_event :=
| GotSessionCreated (c : string)
| GotJoinedSession (c : string)
| GotJoinError (message : string)
| GotSessionEnded
| ClickStart
| SubmitCode (c : string)
| ClickEnd
| ClickLeave.

Definition app_step (e : app_event) (a : app) : app * list request :=
  match e, view a with
  | GotSessionCreated c, _ => (onSessionCreated c a, [])
  | GotJoinedSession c, _ => (onJoinedSession c a, [])
  | GotJoinError m, _ => (onJoinError m a, [])
  | GotSessionEnded, _ => (onSessionEnded a, [])
  | ClickStart, VJoin => handleStartSession a
  | SubmitCode c, VJoin => handleSubmit c a
  | ClickEnd, VTeacher => handleEndSession a
  | ClickLeave, VStudent => handleLeave a
  | _, _ => (a, [])
  end.

Fixpoint app_run (es : list app_event) (a : app) : app * list request :=
  match es with
  | [] => (a, [])
  | e :: es' =>
      let '(a1, out1) := app_step e a in
      let '(a2, out2) := app_run es' a1 in
      (a2, (out1 ++ out2)%list)
  end.

(** [COLORS] and [LABELS] of [TeacherView]. *)
Definition COLORS : gmap string string :=
  <["gotit" := "#4CAF50"]> (<["neutral" := "#2196F3"]>
    (<["confused" := "#FF9800"]> (<["lost" := "#F44336"]> ∅))).

Definition LABELS : gmap string string :=
  <["gotit" := "😊 Got it"]> (<["neutral" := "😐 Neutral"]>
    (<["confused" := "😕 Confused"]> (<["lost" := "😵 Lost"]> ∅))).

(** An element of [chartData]: [{ name, value, color }]; a property that
    the source object does not have is [None]. *)
Record slice := Slice {
  name : option string;
  value : option jsnum;
  color : option string
}.

(** [d.value > 0] *)
Definition positive (v : option jsnum) : bool :=
  match v with
  | Some (Num n) => (0 <? n)%nat
  | _ => false
  end.

(** [chartData]: the four levels in order, those with a count above 0. *)
Definition chartData (aggregate : gmap string jsnum) : list slice :=
  filter (λ d, positive (value d) = true)
    ((λ key, Slice (LABELS !! key) (aggregate !! key) (COLORS !! key))
       <$> ["gotit"; "neutral"; "confused"; "lost"]).

(** The sum of the counts shown in the chart. *)
Definition chart_sum (ds : list slice) : nat :=
  foldr (λ d acc, match value d with Some (Num n) => n + acc | _ => acc end)
        0 ds.

End Client.

(** ** Properties, drivers and example states *)
Module Props.
Import Registry Trace Coordinator.

(** The number of entries of a participant map that hold level [l]. *)
Definition participants_at (l : string) (m : gmap string string) : nat :=
  size (filter (λ kv, kv.2 = l) m).

(** The number of occurrences of [l] in a list of levels. *)
Definition tally (l : string) (ls : list string) : nat :=
  length (filter (λ v, v = l) ls).

(** The symbols of [chars]. *)
Definition alphabet : list Ascii.ascii := String.list_ascii_of_string chars.

(** A capital letter or a digit. *)
Definition upper_or_digit (a : Ascii.ascii) : bool :=
  let n := Ascii.nat_of_ascii a in
  ((65 <=? n)%nat && (n <=? 90)%nat) || ((48 <=? n)%nat && (n <=? 57)%nat).

(** A well-formed session code: six symbols of the alphabet. *)
Definition code_ok (c : string) : Prop :=
  String.length c = 6 ∧
  Forall (λ a, a ∈ alphabet) (String.list_ascii_of_string c).

(** Every reverse-index entry points into the forward map: its session
    exists, and the socket is that session's teacher or one of its
    participants, according to the recorded role. *)
Definition index_sound (st : state) : Prop :=
  ∀ id i, socketToSession st !! id = Some i →
    ∃ s, sessions st !! code i = Some s ∧
         match role_of i with
         | teacher => teacherSocketId s = id
         | student => is_Some (clients s !! id)
         end.

(** Every connection that is part of a session has a reverse-index
    entry. *)
Definition index_complete (st : state) : Prop :=
  ∀ c s id, sessions st !! c = Some s →
    teacherSocketId s = id ∨ is_Some (clients s !! id) →
    is_Some (socketToSession st !! id).

(** The reverse index mirrors the forward map in both directions. *)
Definition index_consistent (st : state) : Prop :=
  index_sound st ∧ index_complete st.

(** Every stored level is one of the four feedback levels. *)
Definition levels_valid (st : state) : Prop :=
  ∀ c s id l, sessions st !! c = Some s → clients s !! id = Some l →
    l ∈ FEEDBACK_LEVELS.

(** No session lists its own teacher among its participants. *)
Definition owner_not_participant (st : state) : Prop :=
  ∀ c s, sessions st !! c = Some s → clients s !! teacherSocketId s = None.

(** A call that does not enrol a session's teacher in that session. *)
Definition no_owner_join (o : op) (st : state) : Prop :=
  match o with
  | OpAdd c id => ∀ s, sessions st !! c = Some s → teacherSocketId s ≠ id
  | _ => True
  end.

(** The entries of a session's participant map under a key other than the
    session's teacher. *)
Definition students_of (s : session) : gmap string string :=
  filter (λ kv, kv.1 ≠ teacherSocketId s) (clients s).

(** [total] of a session's aggregate is the number of its participant
    entries with the teacher left out. *)
Definition total_excludes_teacher (st : state) : Prop :=
  ∀ c s agg, sessions st !! c = Some s → getAggregate c st = Some agg →
    agg !! "total" = Some (Num (size (students_of s))).

(** The codes of a sequence of [createSession] calls. *)
Fixpoint create_all (calls : list (string * list nat * Z)) (st : state)
  : option (list string * state) :=
  match calls with
  | [] => Some ([], st)
  | (t, rnd, now) :: calls' =>
      match createSession t rnd now st with
      | None => None
      | Some (c, st1) =>
          match create_all calls' st1 with
          | None => None
          | Some (cs, st2) => Some (c :: cs, st2)
          end
      end
  end.

(** A small reachable registry: teacher ["T"] has created session
    ["AB23CD"] and student ["X"] has joined it. *)
Definition ex_ops : list op :=
  [OpCreate "T" [0; 1; 24; 25; 2; 3] 1000; OpAdd "AB23CD" "X"].

Definition ex_state : state :=
  State (<["AB23CD" := Session "T" (<["X" := "neutral"]> ∅) 1000]> ∅)
        (<["X" := Info "AB23CD" student]>
           (<["T" := Info "AB23CD" teacher]> ∅)).

(** Twelve draws: the first six spell ["AB23CD"], the next six
    ["HHHHHH"]. *)
Definition ex_draws : list nat := [0; 1; 24; 25; 2; 3; 7; 7; 7; 7; 7; 7].

(** A teacher who joins their own session. *)
Definition cx_owner_ops : list op :=
  [OpCreate "T" [0; 1; 24; 25; 2; 3] 1000; OpAdd "AB23CD" "T"].

Definition cx_owner_state : state :=
  State (<["AB23CD" := Session "T" (<["T" := "neutral"]> ∅) 1000]> ∅)
        (<["T" := Info "AB23CD" student]> ∅).

(** A teacher whose socket has disconnected. *)
Definition cx_teacher_left_ops : list op :=
  [OpCreate "T" [0; 1; 24; 25; 2; 3] 1000; OpRemove "T"].

Definition cx_teacher_left : state :=
  State (<["AB23CD" := Session "T" ∅ 1000]> ∅) ∅.

(** All events of a run, handled in order; [None] when a handler does not
    return. *)
Fixpoint run_events (normalize : option string → string)
    (evs : list event) (st : cstate) : option cstate :=
  match evs with
  | [] => Some st
  | ev :: evs' =>
      match handle normalize ev st with
      | None => None
      | Some (st', _) => run_events normalize evs' st'
      end
  end.

(** Later timestamps are at least [THROTTLE_MS] after earlier ones. *)
Definition spaced (ts : list Z) : Prop :=
  StronglySorted (λ t1 t2, (THROTTLE_MS ≤ t2 - t1)%Z) ts.

(** The scenario of the specification: a session is created, ["X"] joins
    and sends "confused" at time 2000. *)
Definition ex_events : list event :=
  [EvCreate "T" [0; 1; 24; 25; 2; 3] 1000;
   EvJoin "X" (Some "ab23cd ");
   EvFeedback "X" (Some "AB23CD") "confused" 2000].

End Props.

(** ** Further drivers and observations *)
Module MoreProps.
Import Registry Trace Coordinator Client Props.

(** One counter of the aggregate of session [c], when [getAggregate]
    returns an object whose property [key] is a number. *)
Definition counter (c key : string) (st : state) : option nat :=
  match getAggregate c st with
  | Some agg =>
      match agg !! key with
      | Some (Num n) => Some n
      | _ => None
      end
  | None => None
  end.

(** Everything the handlers ask of the transport while the server handles
    [evs] one after the other. *)
Fixpoint run_actions (normalize : option string → string)
    (evs : list event) (st : cstate) : list action :=
  match evs with
  | [] => []
  | ev :: evs' =>
      match handle normalize ev st with
      | None => []
      | Some (st', out) => out ++ run_actions normalize evs' st'
      end
  end.

(** The text that [n] draws append to the code. *)
Fixpoint word (n : nat) (ds : list nat) : string :=
  match n, ds with
  | S n', r :: ds' => char_at chars r +:+ word n' ds'
  | _, _ => ""
  end.

(** The four counters of an aggregate are numbers that add up to its
    [total]. *)
Definition balanced (agg : gmap string jsnum) : Prop :=
  ∃ g n cf l t,
    agg !! "gotit" = Some (Num g) ∧ agg !! "neutral" = Some (Num n) ∧
    agg !! "confused" = Some (Num cf) ∧ agg !! "lost" = Some (Num l) ∧
    agg !! "total" = Some (Num t) ∧ g + n + cf + l = t.

(** A text that does not begin with white space. *)
Definition no_lead (l : list Ascii.ascii) : Prop :=
  match l with
  | a :: _ => is_space a = false
  | [] => True
  end.

(** A text of ASCII characters only: every character is below U+0080.
    On such a text [toUpperCase], [trim] and [ascii_normalize] are the
    built-ins of JavaScript. *)
Definition ascii_text (s : string) : Prop :=
  Forall (λ a, (Ascii.nat_of_ascii a < 128)%nat)
         (String.list_ascii_of_string s).

(** A text that is empty or made of ASCII white space only. *)
Definition blank (s : string) : Prop :=
  Forall (λ a, is_space a = true) (String.list_ascii_of_string s).

(** What [App] keeps in [sessionCode], given the events seen so far. *)
Definition app_inv (seen : list app_event) (a : app) : Prop :=
  match view a with
  | VJoin => sessionCode a = ""
  | VTeacher => GotSessionCreated (sessionCode a) ∈ seen
  | VStudent => GotJoinedSession (sessionCode a) ∈ seen
  end.

(** The registry calls that can change session [c]: a join, a feedback
    or an end that names [c], and the removal of a socket whose
    reverse-index entry names [c]. *)
Definition touches (o : op) (st : state) (c : string) : Prop :=
  match o with
  | OpCreate _ _ _ => False
  | OpAdd c0 _ | OpUpdate c0 _ _ | OpEnd c0 => c0 = c
  | OpRemove id => ∃ i, socketToSession st !! id = Some i ∧ code i = c
  end.

End MoreProps.

(** ** Facts about the registry *)
Module RegistryFacts.
Import Registry Trace Props.

(** *** Counting *)

Lemma bump_lookup_ne c v l : v ≠ l → bump c v !! l = c !! l.
Proof. intros Hne. unfold bump. by rewrite lookup_insert_ne. Qed.

Lemma bump_lookup_eq c l :
  bump c l !! l =
  Some (match c !! l with Some (Num n) => Num (S n) | _ => NaN end).
Proof. unfold bump. by rewrite lookup_insert_eq. Qed.

Lemma foldl_bump_lookup ls : ∀ c l n,
  c !! l = Some (Num n) →
  foldl bump c ls !! l = Some (Num (n + tally l ls)).
Proof.
  induction ls as [|v ls IH]; intros c l n Hc; simpl.
  - by rewrite Nat.add_0_r.
  - unfold tally. rewrite filter_cons. destruct (decide (v = l)) as [->|Hne].
    + erewrite IH; [|rewrite bump_lookup_eq, Hc; done].
      simpl. do 2 f_equal. unfold tally. lia.
    + erewrite IH; [done|]. by rewrite bump_lookup_ne.
Qed.

(** Two increments commute, so the pass over [clients.values()] does not
    depend on the iteration order of the [Map]. *)
Lemma bump_comm c a b : bump (bump c a) b = bump (bump c b) a.
Proof.
  destruct (decide (a = b)) as [->|Hne]; [done|].
  apply map_eq. intros k. unfold bump.
  rewrite !lookup_insert.
  repeat case_decide; simplify_eq; done.
Qed.

Lemma foldl_bump_perm ls1 ls2 :
  ls1 ≡ₚ ls2 → ∀ c, foldl bump c ls1 = foldl bump c ls2.
Proof.
  induction 1 as [|v ls1 ls2 _ IH|a b ls|ls1 ls2 ls3 _ IH1 _ IH2];
    intros c; simpl.
  - done.
  - apply IH.
  - by rewrite bump_comm.
  - by rewrite IH1.
Qed.

Lemma count_levels_perm ls1 ls2 :
  ls1 ≡ₚ ls2 → count_levels ls1 = count_levels ls2.
Proof. intros H. by apply foldl_bump_perm. Qed.

Lemma count_levels_lookup l ls :
  l ∈ FEEDBACK_LEVELS → count_levels ls !! l = Some (Num (tally l ls)).
Proof.
  intros Hl. unfold count_levels.
  erewrite foldl_bump_lookup with (n := 0); [done|].
  unfold FEEDBACK_LEVELS in Hl.
  repeat (apply elem_of_cons in Hl as [->|Hl]; [by vm_compute|]).
  by apply elem_of_nil in Hl.
Qed.

Lemma participants_at_tally (m : gmap string string) l :
  participants_at l m = tally l (values m).
Proof.
  unfold participants_at, tally, values.
  induction m as [|i x m Hi IH] using map_ind.
  - by rewrite map_filter_empty, map_size_empty, map_to_list_empty.
  - rewrite map_to_list_insert by done. simpl. rewrite filter_cons.
    destruct (decide (x = l)) as [->|Hne].
    + rewrite map_filter_insert_True by done.
      rewrite map_size_insert_None
        by (by rewrite map_lookup_filter_None; left).
      simpl. by rewrite IH.
    + rewrite map_filter_insert_False by done.
      rewrite delete_id by done. done.
Qed.

Lemma length_values (m : gmap string string) : length (values m) = size m.
Proof. unfold values. by rewrite length_fmap, length_map_to_list. Qed.

Lemma elem_of_values (m : gmap string string) l :
  l ∈ values m ↔ ∃ k, m !! k = Some l.
Proof.
  unfold values. rewrite list_elem_of_fmap. split.
  - intros [[k v] [-> Hkv]]. exists k. by apply elem_of_map_to_list.
  - intros [k Hk]. exists (k, l). split; [done|].
    by apply elem_of_map_to_list.
Qed.

Lemma elem_of_keys (m : gmap string string) k :
  k ∈ keys m ↔ is_Some (m !! k).
Proof.
  unfold keys. rewrite list_elem_of_fmap. split.
  - intros [[k' v] [-> Hkv]]. exists v. by apply elem_of_map_to_list.
  - intros [v Hv]. exists (k, v). split; [done|].
    by apply elem_of_map_to_list.
Qed.

(** When every level is one of the four, the four tallies add up to the
    length of the list. *)
Lemma tally_sum ls :
  Forall (λ l, l ∈ FEEDBACK_LEVELS) ls →
  tally "gotit" ls + tally "neutral" ls + tally "confused" ls
    + tally "lost" ls = length ls.
Proof.
  induction 1 as [|l ls Hl _ IH]; [done|].
  unfold tally in *. rewrite !filter_cons. simpl.
  unfold FEEDBACK_LEVELS in Hl.
  repeat (apply elem_of_cons in Hl as [->|Hl];
          [repeat case_decide; try congruence; simpl; lia|]).
  by apply elem_of_nil in Hl.
Qed.

(** *** The loop of [endSession] *)

Lemma delete_keys_lookup ks : ∀ (m : gmap string info) k,
  delete_keys ks m !! k = if decide (k ∈ ks) then None else m !! k.
Proof.
  unfold delete_keys.
  induction ks as [|k0 ks IH]; intros m k; cbn [foldl].
  - case_decide as H; [by apply elem_of_nil in H|done].
  - rewrite IH. destruct (decide (k = k0)) as [->|Hne].
    + rewrite lookup_delete_eq.
      rewrite (decide_True (P := k0 ∈ k0 :: ks))
        by (apply elem_of_cons; by left).
      by case_decide.
    + rewrite lookup_delete_ne by done.
      destruct (decide (k ∈ ks)) as [Hin|Hout].
      * rewrite decide_True; [done|]. apply elem_of_cons. by right.
      * rewrite decide_False; [done|].
        intros [?|?]%elem_of_cons; done.
Qed.

Lemma delete_keys_perm ks1 ks2 (m : gmap string info) :
  ks1 ≡ₚ ks2 → delete_keys ks1 m = delete_keys ks2 m.
Proof.
  intros Hp. apply map_eq. intros k. rewrite !delete_keys_lookup.
  repeat case_decide; try done.
  - exfalso. by rewrite Hp in *.
  - exfalso. by rewrite <- Hp in *.
Qed.

(** *** Code generation *)

Lemma string_app_cons a (s1 s2 : string) :
  String a s1 +:+ s2 = String a (s1 +:+ s2).
Proof. reflexivity. Qed.

Lemma string_app_nil_l (s : string) : "" +:+ s = s.
Proof. reflexivity. Qed.

Lemma string_app_nil_r (s : string) : s +:+ "" = s.
Proof.
  induction s as [|a s IH]; [done|]. by rewrite string_app_cons, IH.
Qed.

Lemma string_app_assoc (s1 s2 s3 : string) :
  (s1 +:+ s2) +:+ s3 = s1 +:+ (s2 +:+ s3).
Proof.
  induction s1 as [|a s1 IH]; [done|]. by rewrite !string_app_cons, IH.
Qed.

Lemma string_get_alphabet (s : string) : ∀ r,
  r < String.length s →
  ∃ a, String.get r s = Some a ∧ a ∈ String.list_ascii_of_string s.
Proof.
  induction s as [|a s IH]; intros r Hr; simpl in *; [lia|].
  destruct r as [|r].
  - exists a. split; [done|]. apply elem_of_cons. by left.
  - destruct (IH r) as (b & Hb & Hin); [lia|].
    exists b. split; [done|]. apply elem_of_cons. by right.
Qed.

Lemma char_at_chars r :
  r < String.length chars →
  ∃ a, char_at chars r = String a "" ∧ a ∈ alphabet.
Proof.
  intros Hr. destruct (string_get_alphabet chars r Hr) as (a & Ha & Hin).
  exists a. unfold char_at. by rewrite Ha.
Qed.

Lemma draw_code_spec n : ∀ rnd acc c rnd',
  Forall (λ r, r < String.length chars) rnd →
  draw_code n rnd acc = Some (c, rnd') →
  ∃ suf, c = acc +:+ suf ∧ String.length suf = n ∧
         Forall (λ a, a ∈ alphabet) (String.list_ascii_of_string suf) ∧
         Forall (λ r, r < String.length chars) rnd'.
Proof.
  induction n as [|n IH]; intros rnd acc c rnd' Hrnd Hd; simpl in Hd.
  - injection Hd as <- <-. exists "". split_and!; try done.
    by rewrite string_app_nil_r.
  - destruct rnd as [|r rnd]; [done|].
    apply Forall_cons in Hrnd as [Hr Hrnd].
    destruct (char_at_chars r Hr) as (a & Ha & Hin). rewrite Ha in Hd.
    destruct (IH _ _ _ _ Hrnd Hd) as (suf & -> & Hlen & Hall & Hrnd').
    exists (String a suf). split_and!.
    + by rewrite string_app_assoc, string_app_cons, string_app_nil_l.
    + simpl. by rewrite Hlen.
    + simpl. by apply Forall_cons.
    + done.
Qed.

Lemma generateCode_loop_spec fuel : ∀ rnd ss c,
  Forall (λ r, r < String.length chars) rnd →
  generateCode_loop fuel rnd ss = Some c →
  ss !! c = None ∧ code_ok c.
Proof.
  induction fuel as [|fuel IH]; intros rnd ss c Hrnd Hg;
    cbn [generateCode_loop] in Hg; [done|].
  destruct (draw_code 6 rnd "") as [[c0 rnd0]|] eqn:Hd; [|done].
  destruct (draw_code_spec _ _ _ _ _ Hrnd Hd)
    as (suf & Hc0 & Hlen & Hall & Hrnd0).
  rewrite string_app_nil_l in Hc0. subst c0.
  case_bool_decide as Hhas.
  - by apply (IH rnd0).
  - injection Hg as <-. split; [|done].
    by apply eq_None_not_Some.
Qed.

(** The loop only leaves with a code that no session uses, whatever the
    draws are. *)
Lemma generateCode_loop_fresh fuel : ∀ rnd ss c,
  generateCode_loop fuel rnd ss = Some c → ss !! c = None.
Proof.
  induction fuel as [|fuel IH]; intros rnd ss c Hg;
    cbn [generateCode_loop] in Hg; [done|].
  destruct (draw_code 6 rnd "") as [[c0 rnd0]|]; [|done].
  case_bool_decide as Hhas.
  - by apply (IH rnd0).
  - injection Hg as <-. by apply eq_None_not_Some.
Qed.

Lemma generateCode_fresh rnd ss c :
  generateCode rnd ss = Some c → ss !! c = None.
Proof. apply generateCode_loop_fresh. Qed.

Lemma draw_code_length n : ∀ rnd acc c rnd',
  draw_code n rnd acc = Some (c, rnd') → length rnd = n + length rnd'.
Proof.
  induction n as [|n IH]; intros rnd acc c rnd' Hd; simpl in Hd.
  - by injection Hd as <- <-.
  - destruct rnd as [|r rnd]; [done|]. simpl. f_equal. by eapply IH.
Qed.

(** The bound on the iterations is never what stops the loop: with more
    iterations allowed than there are draws, allowing still more changes
    nothing. *)
Lemma generateCode_loop_fuel ss (fuel : nat) :
  ∀ (rnd : list nat) (fuel' : nat),
  (length rnd < fuel)%nat → (fuel ≤ fuel')%nat →
  generateCode_loop fuel' rnd ss = generateCode_loop fuel rnd ss.
Proof.
  induction fuel as [|fuel IH]; intros rnd fuel' Hlen Hle; [lia|].
  destruct fuel' as [|fuel']; [lia|]. cbn [generateCode_loop].
  destruct (draw_code 6 rnd "") as [[c rnd']|] eqn:Hd; [|done].
  apply draw_code_length in Hd.
  case_bool_decide; [|done]. apply IH; lia.
Qed.

(** The first attempt succeeds when its code is free: the loop returns. *)
Lemma generateCode_returns rnd ss c rnd' :
  draw_code 6 rnd "" = Some (c, rnd') → ss !! c = None →
  generateCode rnd ss = Some c.
Proof.
  intros Hd Hfree. unfold generateCode. cbn [generateCode_loop].
  rewrite Hd. rewrite bool_decide_eq_false_2; [done|].
  rewrite Hfree. by intros [? ?].
Qed.

(** *** Invariants of the two stores *)

Lemma step_index_sound o st st' :
  step o st = Some st' → index_sound st → index_sound st'.
Proof.
  intros Hstep Hinv id i Hi. destruct st as [ss idx].
  destruct o as [t rnd now|c sid|c sid l|sid|c]; simpl in Hstep.
  - (* createSession *)
    unfold createSession in Hstep. simpl in Hstep.
    destruct (generateCode rnd ss) as [c|] eqn:Hg; [|done].
    apply generateCode_fresh in Hg.
    injection Hstep as <-. simpl in *.
    destruct (decide (t = id)) as [->|Hne].
    + rewrite lookup_insert_eq in Hi. injection Hi as <-. simpl.
      rewrite lookup_insert_eq. by eexists.
    + rewrite lookup_insert_ne in Hi by done.
      destruct (Hinv id i Hi) as (s & Hs & Hrole). simpl in *.
      exists s. split; [|done].
      rewrite lookup_insert_ne; [done|]. intros ->. congruence.
  - (* addStudent *)
    unfold addStudent in Hstep. simpl in Hstep.
    destruct (ss !! c) as [s0|] eqn:Hc; injection Hstep as <-;
      [|by apply Hinv].
    simpl in *. destruct (decide (sid = id)) as [->|Hne].
    + rewrite lookup_insert_eq in Hi. injection Hi as <-. simpl.
      rewrite lookup_insert_eq. eexists. split; [done|]. simpl.
      by rewrite lookup_insert_eq.
    + rewrite lookup_insert_ne in Hi by done.
      destruct (Hinv id i Hi) as (s & Hs & Hrole). simpl in *.
      destruct (decide (c = code i)) as [->|Hcne].
      * rewrite lookup_insert_eq. eexists. split; [done|].
        assert (s = s0) as -> by congruence.
        destruct (role_of i); simpl; [done|].
        by rewrite lookup_insert_ne.
      * rewrite lookup_insert_ne by done. by exists s.
  - (* updateFeedback *)
    unfold updateFeedback in Hstep. simpl in Hstep.
    case_bool_decide; [|injection Hstep as <-; by apply Hinv].
    destruct (ss !! c) as [s0|] eqn:Hc;
      [|injection Hstep as <-; by apply Hinv].
    case_bool_decide as Hmem; injection Hstep as <-; [|by apply Hinv].
    simpl in *. destruct (Hinv id i Hi) as (s & Hs & Hrole). simpl in *.
    destruct (decide (c = code i)) as [->|Hcne].
    + rewrite lookup_insert_eq. eexists. split; [done|].
      assert (s = s0) as -> by congruence.
      destruct (role_of i); simpl; [done|].
      destruct (decide (sid = id)) as [->|Hne].
      * by rewrite lookup_insert_eq.
      * by rewrite lookup_insert_ne.
    + rewrite lookup_insert_ne by done. by exists s.
  - (* removeSocket *)
    unfold removeSocket in Hstep. simpl in Hstep.
    destruct (idx !! sid) as [i0|] eqn:Hsid; injection Hstep as <-;
      [|by apply Hinv].
    simpl in *. destruct (decide (sid = id)) as [->|Hne].
    { by rewrite lookup_delete_eq in Hi. }
    rewrite lookup_delete_ne in Hi by done.
    destruct (Hinv id i Hi) as (s & Hs & Hrole). simpl in *.
    destruct (ss !! code i0) as [s0|] eqn:Hc0; [|by exists s].
    destruct (role_of i0); [by exists s|].
    destruct (decide (code i0 = code i)) as [Heq|Hcne].
    + rewrite Heq in *. rewrite lookup_insert_eq. eexists. split; [done|].
      assert (s = s0) as -> by congruence.
      destruct (role_of i); simpl; [done|].
      by rewrite lookup_delete_ne.
    + rewrite lookup_insert_ne by done. by exists s.
  - (* endSession *)
    unfold endSession in Hstep. simpl in Hstep.
    destruct (ss !! c) as [s0|] eqn:Hc; injection Hstep as <-;
      [|by apply Hinv].
    simpl in *. rewrite delete_keys_lookup in Hi.
    case_decide as Hk; [done|].
    destruct (decide (teacherSocketId s0 = id)) as [Ht|Ht].
    { subst id. by rewrite lookup_delete_eq in Hi. }
    rewrite lookup_delete_ne in Hi by done.
    destruct (Hinv id i Hi) as (s & Hs & Hrole). simpl in *.
    exists s. split; [|done].
    rewrite lookup_delete_ne; [done|]. intros ->.
    assert (s = s0) as -> by congruence.
    destruct (role_of i); [done|]. by apply Hk, elem_of_keys.
Qed.

Lemma step_levels_valid o st st' :
  step o st = Some st' → levels_valid st → levels_valid st'.
Proof.
  intros Hstep Hinv c' s' id l Hs' Hl. destruct st as [ss idx].
  destruct o as [t rnd now|c sid|c sid lv|sid|c]; simpl in Hstep.
  - unfold createSession in Hstep. simpl in Hstep.
    destruct (generateCode rnd ss) as [c|]; [|done].
    injection Hstep as <-. simpl in *.
    destruct (decide (c = c')) as [->|Hne].
    + rewrite lookup_insert_eq in Hs'. injection Hs' as <-. done.
    + rewrite lookup_insert_ne in Hs' by done. by eapply Hinv.
  - unfold addStudent in Hstep. simpl in Hstep.
    destruct (ss !! c) as [s0|] eqn:Hc; injection Hstep as <-;
      [|by eapply Hinv].
    simpl in *. destruct (decide (c = c')) as [->|Hne].
    + rewrite lookup_insert_eq in Hs'. injection Hs' as <-. simpl in Hl.
      destruct (decide (sid = id)) as [->|Hid].
      * rewrite lookup_insert_eq in Hl. injection Hl as <-.
        unfold FEEDBACK_LEVELS. repeat constructor.
      * rewrite lookup_insert_ne in Hl by done. by eapply (Hinv c').
    + rewrite lookup_insert_ne in Hs' by done. by eapply Hinv.
  - unfold updateFeedback in Hstep. simpl in Hstep.
    case_bool_decide as Hlv; [|injection Hstep as <-; by eapply Hinv].
    destruct (ss !! c) as [s0|] eqn:Hc;
      [|injection Hstep as <-; by eapply Hinv].
    case_bool_decide; injection Hstep as <-; [|by eapply Hinv].
    simpl in *. destruct (decide (c = c')) as [->|Hne].
    + rewrite lookup_insert_eq in Hs'. injection Hs' as <-. simpl in Hl.
      destruct (decide (sid = id)) as [->|Hid].
      * rewrite lookup_insert_eq in Hl. by injection Hl as <-.
      * rewrite lookup_insert_ne in Hl by done. by eapply (Hinv c').
    + rewrite lookup_insert_ne in Hs' by done. by eapply Hinv.
  - unfold removeSocket in Hstep. simpl in Hstep.
    destruct (idx !! sid) as [i0|]; injection Hstep as <-;
      [|by eapply Hinv].
    simpl in *.
    destruct (ss !! code i0) as [s0|] eqn:Hc0; [|by eapply Hinv].
    destruct (role_of i0); [by eapply Hinv|].
    destruct (decide (code i0 = c')) as [<-|Hne].
    + rewrite lookup_insert_eq in Hs'. injection Hs' as <-. simpl in Hl.
      apply lookup_delete_Some in Hl as [_ Hl]. by eapply (Hinv (code i0)).
    + rewrite lookup_insert_ne in Hs' by done. by eapply Hinv.
  - unfold endSession in Hstep. simpl in Hstep.
    destruct (ss !! c) as [s0|] eqn:Hc; injection Hstep as <-;
      [|by eapply Hinv].
    simpl in *. apply lookup_delete_Some in Hs' as [_ Hs'].
    by eapply Hinv.
Qed.

Lemma step_owner_not_participant o st st' :
  no_owner_join o st → step o st = Some st' →
  owner_not_participant st → owner_not_participant st'.
Proof.
  intros Hguard Hstep Hinv c' s' Hs'. destruct st as [ss idx].
  destruct o as [t rnd now|c sid|c sid lv|sid|c]; simpl in Hstep.
  - unfold createSession in Hstep. simpl in Hstep.
    destruct (generateCode rnd ss) as [c|]; [|done].
    injection Hstep as <-. simpl in *.
    destruct (decide (c = c')) as [->|Hne].
    + rewrite lookup_insert_eq in Hs'. injection Hs' as <-. done.
    + rewrite lookup_insert_ne in Hs' by done. by eapply Hinv.
  - unfold addStudent in Hstep. simpl in Hstep.
    destruct (ss !! c) as [s0|] eqn:Hc; injection Hstep as <-;
      [|by eapply Hinv].
    simpl in *. destruct (decide (c = c')) as [->|Hne].
    + rewrite lookup_insert_eq in Hs'. injection Hs' as <-. simpl.
      rewrite lookup_insert_ne by (by apply not_eq_sym, Hguard).
      by apply (Hinv c').
    + rewrite lookup_insert_ne in Hs' by done. by eapply Hinv.
  - unfold updateFeedback in Hstep. simpl in Hstep.
    case_bool_decide as Hlv; [|injection Hstep as <-; by eapply Hinv].
    destruct (ss !! c) as [s0|] eqn:Hc;
      [|injection Hstep as <-; by eapply Hinv].
    case_bool_decide as Hmem; injection Hstep as <-; [|by eapply Hinv].
    simpl in *. destruct (decide (c = c')) as [->|Hne].
    + rewrite lookup_insert_eq in Hs'. injection Hs' as <-. simpl.
      pose proof (Hinv c' s0 Hc) as Hown. simpl in Hown.
      rewrite lookup_insert_ne; [done|].
      intros ->. rewrite Hown in Hmem. by destruct Hmem.
    + rewrite lookup_insert_ne in Hs' by done. by eapply Hinv.
  - unfold removeSocket in Hstep. simpl in Hstep.
    destruct (idx !! sid) as [i0|]; injection Hstep as <-;
      [|by eapply Hinv].
    simpl in *.
    destruct (ss !! code i0) as [s0|] eqn:Hc0; [|by eapply Hinv].
    destruct (role_of i0); [by eapply Hinv|].
    destruct (decide (code i0 = c')) as [<-|Hne].
    + rewrite lookup_insert_eq in Hs'. injection Hs' as <-. simpl.
      apply lookup_delete_None. right. by apply (Hinv (code i0)).
    + rewrite lookup_insert_ne in Hs' by done. by eapply Hinv.
  - unfold endSession in Hstep. simpl in Hstep.
    destruct (ss !! c) as [s0|] eqn:Hc; injection Hstep as <-;
      [|by eapply Hinv].
    simpl in *. apply lookup_delete_Some in Hs' as [_ Hs'].
    by eapply Hinv.
Qed.

Lemma reachable_under_weaken (P : op → state → Prop) st :
  reachable_under P st → reachable st.
Proof.
  induction 1 as [|o st st' _ IH _ Hstep]; [constructor|].
  by eapply reach_step.
Qed.

Lemma reachable_index_sound st : reachable st → index_sound st.
Proof.
  induction 1 as [|o st st' _ IH _ Hstep].
  - intros id i Hi. cbn in Hi. by rewrite lookup_empty in Hi.
  - by eapply step_index_sound.
Qed.

Lemma reachable_levels_valid st : reachable st → levels_valid st.
Proof.
  induction 1 as [|o st st' _ IH _ Hstep].
  - intros c s id l Hs. cbn in Hs. by rewrite lookup_empty in Hs.
  - by eapply step_levels_valid.
Qed.

(** *** The aggregate and the teacher *)

(** What [getAggregate] returns for an existing session. *)
Lemma getAggregate_lookup st c s :
  sessions st !! c = Some s →
  ∃ agg, getAggregate c st = Some agg ∧
    (∀ l, l ∈ FEEDBACK_LEVELS →
       agg !! l = Some (Num (participants_at l (clients s)))) ∧
    agg !! "total" = Some (Num (size (clients s))).
Proof.
  intros Hs. unfold getAggregate. rewrite Hs.
  eexists. split; [done|]. split.
  - intros l Hl. rewrite lookup_insert_ne.
    + rewrite participants_at_tally. by apply count_levels_lookup.
    + intros <-. revert Hl. unfold FEEDBACK_LEVELS.
      intros Hl. repeat (apply elem_of_cons in Hl as [?|Hl]; [done|]).
      by apply elem_of_nil in Hl.
  - by rewrite lookup_insert_eq.
Qed.

(** Leaving out the teacher's key is deleting it. *)
Lemma students_of_delete s :
  students_of s = delete (teacherSocketId s) (clients s).
Proof.
  unfold students_of. apply map_eq. intros k.
  destruct (decide (k = teacherSocketId s)) as [->|Hk].
  - rewrite lookup_delete_eq. apply map_lookup_filter_None. right.
    intros v _ Hne. by apply Hne.
  - rewrite lookup_delete_ne by done.
    destruct (clients s !! k) as [v|] eqn:Hv.
    + by apply map_lookup_filter_Some.
    + apply map_lookup_filter_None. by left.
Qed.

(** The participant map has one entry more than [students_of] exactly
    when the teacher is one of its keys. *)
Lemma size_students_of s :
  size (clients s)
  = size (students_of s)
    + (match clients s !! teacherSocketId s with Some _ => 1 | None => 0 end).
Proof.
  rewrite students_of_delete.
  destruct (clients s !! teacherSocketId s) as [v|] eqn:Hv.
  - rewrite <- (insert_id (clients s) _ v Hv) at 1.
    rewrite <- insert_delete_eq.
    rewrite map_size_insert_None by apply lookup_delete_eq. lia.
  - rewrite delete_id by done. lia.
Qed.

(** Without a teacher joining its own session, no session lists its
    teacher among its participants. *)
Lemma guarded_owner_not_participant st :
  reachable_under no_owner_join st → owner_not_participant st.
Proof.
  induction 1 as [|o st st' _ IH Hguard Hstep].
  - intros c s Hs. cbn in Hs. by rewrite lookup_empty in Hs.
  - by eapply step_owner_not_participant.
Qed.

(** A run of calls reaches its final state. *)
Lemma run_reachable ops : ∀ st st',
  reachable st → run ops st = Some st' → reachable st'.
Proof.
  induction ops as [|o ops IH]; intros st st' Hst Hrun; simpl in Hrun.
  - by injection Hrun as <-.
  - destruct (step o st) as [st1|] eqn:Hstep; [|done].
    eapply IH; [|done]. by eapply reach_step.
Qed.

End RegistryFacts.

(** ** The registry operations against their descriptions *)
Module RegistrySpec.
Import Registry Trace Props RegistryFacts.

(** C3. [updateFeedback(code, connId, level)] returns false exactly when
    the level is not one of the four feedback levels, or no session has
    that code, or [connId] is not a participant of that session.  A false
    return leaves the registry, and so every aggregate, as it was.  A true
    return changes nothing but the level of that one participant, which
    becomes [level]. *)
Theorem updateFeedback_spec (st : state) (c id level : string) :
  let r := (updateFeedback c id level st).1 in
  let st' := (updateFeedback c id level st).2 in
  (r = false ↔
     level ∉ FEEDBACK_LEVELS ∨ sessions st !! c = None ∨
     ∃ s, sessions st !! c = Some s ∧ clients s !! id = None) ∧
  (r = false → st' = st ∧ ∀ c', getAggregate c' st' = getAggregate c' st) ∧
  (r = true →
     socketToSession st' = socketToSession st ∧
     (∀ c', c' ≠ c → sessions st' !! c' = sessions st !! c') ∧
     ∃ s s', sessions st !! c = Some s ∧ sessions st' !! c = Some s' ∧
             teacherSocketId s' = teacherSocketId s ∧
             createdAt s' = createdAt s ∧
             is_Some (clients s !! id) ∧
             clients s' !! id = Some level ∧
             ∀ id', id' ≠ id → clients s' !! id' = clients s !! id').
Proof.
  unfold updateFeedback.
  destruct (decide (level ∈ FEEDBACK_LEVELS)) as [Hl|Hl].
  2:{ rewrite bool_decide_eq_false_2 by done. simpl.
      split_and!; [split; [by left|done]|done|done]. }
  rewrite bool_decide_eq_true_2 by done.
  destruct (sessions st !! c) as [s|] eqn:Hc.
  2:{ simpl. split_and!; [split; [by right; left|done]|done|done]. }
  destruct (clients s !! id) as [l0|] eqn:Hid.
  - rewrite bool_decide_eq_true_2 by done. simpl. split_and!.
    + split; [done|]. intros [?|[?|(s1 & Hs1 & Hn)]]; [done|done|].
      congruence.
    + done.
    + intros _. split_and!; [done| |].
      * intros c' Hne. by rewrite lookup_insert_ne.
      * exists s. eexists. rewrite lookup_insert_eq. split_and!; try done.
        -- simpl. by rewrite lookup_insert_eq.
        -- intros id' Hne. simpl. by rewrite lookup_insert_ne.
  - rewrite bool_decide_eq_false_2 by (by intros [? ?]). simpl.
    split_and!; [|done|done].
    split; [|done]. intros _. right. right. by exists s.
Qed.

(** C4, as stated, fails in its last clause.  [total] is
    [session.clients.size], and nothing keeps the teacher out of
    [clients]: after [createSession("T")] has returned ["AB23CD"] and
    [addStudent("AB23CD", "T")], the only participant entry is the
    teacher's, and [getAggregate("AB23CD")] has neutral 1 and total 1,
    where the number of entries with the teacher left out is 0. *)
Lemma teacher_counted_in_total :
  run cx_owner_ops empty_state = Some cx_owner_state ∧
  reachable cx_owner_state ∧
  (∃ s agg,
     sessions cx_owner_state !! "AB23CD" = Some s ∧
     teacherSocketId s = "T" ∧
     clients s = <["T" := "neutral"]> ∅ ∧
     getAggregate "AB23CD" cx_owner_state = Some agg ∧
     agg !! "neutral" = Some (Num 1) ∧
     agg !! "total" = Some (Num 1) ∧
     size (students_of s) = 0) ∧
  ¬ total_excludes_teacher cx_owner_state.
Proof.
  split; [reflexivity|]. split_and!.
  - apply (run_reachable cx_owner_ops empty_state); [constructor|reflexivity].
  - do 2 eexists. split_and!; reflexivity.
  - intros H. specialize (H "AB23CD" _ _ eq_refl eq_refl).
    vm_compute in H. discriminate.
Qed.

(** C4, amended.  [getAggregate(code)] is null exactly when no session has
    that code.  Otherwise each of the four counters is the number of
    participant entries that hold that level, and [total] is the number of
    participant entries.  The teacher is counted when, and only when, it
    is itself a key of the participant map: the number of entries is the
    number of entries of other sockets, plus one if the teacher has an
    entry.  In a registry reached by calls among which no
    [addStudent(code, id)] names the teacher of [code] as [id], [total] is
    the number of entries with the teacher left out.  On a session that
    [createSession] has just made for teacher [t], after two different
    sockets have joined, the aggregate is 0 / 2 / 0 / 0 with total 2; both
    entries are students' if neither socket is [t], and only one is
    otherwise. *)
Theorem getAggregate_entries (st : state) (c : string) :
  (getAggregate c st = None ↔ sessions st !! c = None) ∧
  (∀ s, sessions st !! c = Some s →
     ∃ agg, getAggregate c st = Some agg ∧
       (∀ l, l ∈ FEEDBACK_LEVELS →
          agg !! l = Some (Num (participants_at l (clients s)))) ∧
       agg !! "total" = Some (Num (size (clients s))) ∧
       size (clients s)
       = size (students_of s)
         + (match clients s !! teacherSocketId s with Some _ => 1 | None => 0 end) ∧
       (reachable_under no_owner_join st →
        clients s !! teacherSocketId s = None ∧
        agg !! "total" = Some (Num (size (students_of s))))) ∧
  (∀ t rnd now st1 c1 c2,
     createSession t rnd now st = Some (c, st1) → c1 ≠ c2 →
     ∃ s agg,
       sessions (addStudent c c2 (addStudent c c1 st1).2).2 !! c = Some s ∧
       teacherSocketId s = t ∧
       getAggregate c (addStudent c c2 (addStudent c c1 st1).2).2
         = Some agg ∧
       agg !! "gotit" = Some (Num 0) ∧ agg !! "neutral" = Some (Num 2) ∧
       agg !! "confused" = Some (Num 0) ∧ agg !! "lost" = Some (Num 0) ∧
       agg !! "total" = Some (Num 2) ∧
       size (students_of s) = if decide (c1 = t ∨ c2 = t) then 1 else 2).
Proof.
  split_and!.
  - unfold getAggregate. by destruct (sessions st !! c).
  - intros s Hs.
    destruct (getAggregate_lookup st c s Hs) as (agg & Hg & Hlv & Htot).
    exists agg. split_and!; [done|done|done|apply size_students_of|].
    intros Hreach.
    pose proof (guarded_owner_not_participant st Hreach c s Hs) as Hno.
    split; [done|].
    rewrite Htot, size_students_of, Hno. do 2 f_equal. lia.
  - intros t rnd now st1 c1 c2 Hcreate Hne.
    unfold createSession in Hcreate.
    destruct (generateCode rnd (sessions st)) as [c0|]; [|done].
    injection Hcreate as -> <-.
    unfold addStudent at 2 4. cbn [sessions socketToSession].
    rewrite lookup_insert_eq. cbn [teacherSocketId clients createdAt].
    unfold addStudent. cbn [sessions socketToSession snd].
    rewrite lookup_insert_eq. cbn [teacherSocketId clients createdAt].
    set (m := <[c2:="neutral"]> (<[c1:="neutral"]> ∅)).
    set (s := Session t m now).
    edestruct (getAggregate_lookup
                 (State (<[c:=s]> (<[c:=Session t (<[c1:="neutral"]> ∅) now]>
                    (<[c:=Session t ∅ now]> (sessions st))))
                    (<[c2:=Info c student]> (<[c1:=Info c student]>
                       (<[t:=Info c teacher]> (socketToSession st)))))
                 c s) as (agg & Hg & Hlv & Htot).
    { cbn [sessions]. apply lookup_insert_eq. }
    cbn [clients s] in Hlv, Htot.
    assert (Hsize : size m = 2).
    { unfold m. rewrite map_size_insert_None.
      - by rewrite map_size_insert_None, map_size_empty.
      - rewrite lookup_insert_ne by done. apply lookup_empty. }
    assert (Hat : ∀ l, participants_at l m
                       = if decide (l = "neutral") then 2 else 0).
    { intros l. unfold participants_at, m. case_decide as Hl.
      - subst l. rewrite !map_filter_insert_True by done.
        by rewrite map_filter_empty.
      - rewrite map_filter_insert_False by (simpl; congruence).
        rewrite delete_insert_ne by done.
        rewrite map_filter_insert_False by (simpl; congruence).
        by rewrite !delete_empty, map_filter_empty. }
    exists s, agg. cbn [snd sessions]. rewrite lookup_insert_eq.
    split; [done|]. split; [done|]. split; [exact Hg|].
    rewrite Htot, Hsize.
    rewrite !Hlv by (unfold FEEDBACK_LEVELS; repeat constructor).
    rewrite !Hat. split_and!; try done.
    pose proof (size_students_of s) as Hst.
    cbn [clients teacherSocketId s] in Hst. rewrite Hsize in Hst.
    change (m !! t) with ((<[c2:="neutral"]> (<[c1:="neutral"]> ∅)
                          : gmap string string) !! t) in Hst.
    case_decide as Ht.
    + assert (Hin : is_Some ((<[c2:="neutral"]> (<[c1:="neutral"]> ∅)
                              : gmap string string) !! t)).
      { destruct (decide (c2 = t)) as [->|Hc2].
        - rewrite lookup_insert_eq. by eexists.
        - destruct Ht as [->|?]; [|done].
          rewrite lookup_insert_ne, lookup_insert_eq by done. by eexists. }
      destruct Hin as [v Hv]. rewrite Hv in Hst. lia.
    + rewrite lookup_insert_ne, lookup_insert_ne, lookup_empty in Hst
        by (intros ->; apply Ht; auto). lia.
Qed.

(** The small registry [ex_state] is reached without a teacher joining
    its own session. *)
Lemma ex_reachable_guarded : reachable_under no_owner_join ex_state.
Proof.
  eapply (reach_step _ (OpAdd "AB23CD" "X")
            (State (<["AB23CD" := Session "T" ∅ 1000]> ∅)
                   (<["T" := Info "AB23CD" teacher]> ∅))).
  - eapply (reach_step _ (OpCreate "T" [0; 1; 24; 25; 2; 3] 1000)
              empty_state).
    + constructor.
    + exact I.
    + reflexivity.
  - intros s Hs. vm_compute in Hs. injection Hs as <-. discriminate.
  - reflexivity.
Qed.

Lemma getAggregate_entries_witness :
  reachable_under no_owner_join ex_state ∧
  (∃ agg, getAggregate "AB23CD" ex_state = Some agg ∧
     agg !! "total"
     = Some (Num (size (students_of
                          (Session "T" (<["X" := "neutral"]> ∅) 1000))))) ∧
  (∃ st1, createSession "T" [0; 1; 24; 25; 2; 3] 1000 empty_state
          = Some ("AB23CD", st1) ∧
     ∃ s agg,
       sessions (addStudent "AB23CD" "Y" (addStudent "AB23CD" "X" st1).2).2
         !! "AB23CD" = Some s ∧
       getAggregate "AB23CD"
         (addStudent "AB23CD" "Y" (addStudent "AB23CD" "X" st1).2).2
         = Some agg ∧
       teacherSocketId s = "T" ∧
       agg !! "neutral" = Some (Num 2) ∧ agg !! "total" = Some (Num 2) ∧
       size (students_of s) = 2).
Proof.
  split; [exact ex_reachable_guarded|]. split.
  - destruct (getAggregate_entries ex_state "AB23CD") as (_ & Hs & _).
    destruct (Hs _ eq_refl) as (agg & Hg & _ & _ & _ & Hguard).
    exists agg. split; [exact Hg|].
    exact (proj2 (Hguard ex_reachable_guarded)).
  - eexists. split; [reflexivity|].
    destruct (getAggregate_entries empty_state "AB23CD") as (_ & _ & Hex).
    assert (Hne : "X" ≠ "Y") by discriminate.
    destruct (Hex "T" [0; 1; 24; 25; 2; 3] 1000%Z _ "X" "Y" eq_refl Hne)
      as (s & agg & Hs & Ht & Hg & _ & Hn & _ & _ & Htot & Hst).
    exists s, agg.
    split_and!; [exact Hs|exact Hg|exact Ht|exact Hn|exact Htot|].
    rewrite Hst. reflexivity.
Defined.

(** C8. [endSession(code)] on a code that has no session returns false
    and changes nothing.  On an existing session it returns true; the
    session is gone, the reverse-index entries of its teacher and of each
    of its participants are gone, every other session and entry is as
    before, and calling [endSession(code)] again returns false and changes
    nothing. *)
Theorem endSession_spec (st : state) (c : string) :
  match sessions st !! c with
  | None => endSession c st = (false, st)
  | Some s =>
      ∃ st', endSession c st = (true, st') ∧
        sessions st' = delete c (sessions st) ∧
        socketToSession st' !! teacherSocketId s = None ∧
        (∀ id, is_Some (clients s !! id) →
               socketToSession st' !! id = None) ∧
        (∀ id, id ≠ teacherSocketId s → clients s !! id = None →
               socketToSession st' !! id = socketToSession st !! id) ∧
        endSession c st' = (false, st')
  end.
Proof.
  unfold endSession. destruct (sessions st !! c) as [s|] eqn:Hc; [|done].
  eexists. split; [done|]. cbn [sessions socketToSession]. split_and!.
  - done.
  - rewrite delete_keys_lookup. case_decide; [done|].
    apply lookup_delete_eq.
  - intros id Hid. rewrite delete_keys_lookup.
    rewrite decide_True; [done|]. by apply elem_of_keys.
  - intros id Hne Hid. rewrite delete_keys_lookup.
    rewrite decide_False.
    + by rewrite lookup_delete_ne.
    + rewrite elem_of_keys, Hid. by intros [? ?].
  - by rewrite lookup_delete_eq.
Qed.

(** C6. Whatever the registry holds when [createSession] is called, the
    code it returns has six characters, each of them a symbol of [chars],
    and no session active at the call has that code.  [chars] has 32
    different symbols: the capital letters without I and O, and the digits
    2 to 9.  (A draw is a value of [Math.floor(Math.random() * 32)], so it
    is below 32.) *)
Theorem createSession_code (st st' : state) (t : string) (rnd : list nat)
    (now : Z) (c : string) :
  Forall (λ r, r < String.length chars) rnd →
  createSession t rnd now st = Some (c, st') →
  String.length c = 6 ∧
  Forall (λ a, a ∈ alphabet) (String.list_ascii_of_string c) ∧
  sessions st !! c = None ∧
  length alphabet = 32 ∧ NoDup alphabet ∧
  Forall (λ a, upper_or_digit a = true ∧
               a ∉ String.list_ascii_of_string "0O1I") alphabet.
Proof.
  intros Hrnd Hcreate. unfold createSession in Hcreate.
  destruct (generateCode rnd (sessions st)) as [c0|] eqn:Hg; [|done].
  injection Hcreate as -> <-.
  destruct (generateCode_loop_spec _ _ _ _ Hrnd Hg) as [Hfree [Hlen Hall]].
  split_and!; try done.
  - apply (bool_decide_unpack _). by vm_compute.
  - apply (bool_decide_unpack _). by vm_compute.
Qed.

(** In a sequence of [createSession] calls no code is returned twice, and
    no returned code is the code of a session that existed before. *)
Lemma create_all_distinct calls : ∀ st cs st',
  create_all calls st = Some (cs, st') →
  NoDup cs ∧ (∀ c, c ∈ cs → sessions st !! c = None) ∧
  (∀ c, is_Some (sessions st !! c) → is_Some (sessions st' !! c)).
Proof.
  induction calls as [|[[t rnd] now] calls IH]; intros st cs st' Hall;
    cbn [create_all] in Hall.
  - injection Hall as <- <-. split_and!; [constructor| |done].
    intros c Hc. by apply elem_of_nil in Hc.
  - destruct (createSession t rnd now st) as [[c st1]|] eqn:Hc; [|done].
    destruct (create_all calls st1) as [[cs1 st2]|] eqn:Hrest; [|done].
    injection Hall as <- <-.
    destruct (IH _ _ _ Hrest) as (Hnd & Hfresh & Hkeep).
    unfold createSession in Hc.
    destruct (generateCode rnd (sessions st)) as [c0|] eqn:Hg; [|done].
    injection Hc as -> <-. apply generateCode_fresh in Hg.
    cbn [sessions] in *. split_and!.
    + constructor; [|done]. intros Hin. apply Hfresh in Hin.
      by rewrite lookup_insert_eq in Hin.
    + intros c' [->|Hin]%elem_of_cons; [done|].
      apply Hfresh in Hin. apply lookup_insert_None in Hin. tauto.
    + intros c' Hc'. apply Hkeep.
      destruct (decide (c = c')) as [->|Hne].
      * by rewrite lookup_insert_eq.
      * by rewrite lookup_insert_ne.
Qed.

Lemma ex_run : run ex_ops empty_state = Some ex_state.
Proof. reflexivity. Qed.

Lemma ex_reachable : reachable ex_state.
Proof.
  apply (run_reachable ex_ops empty_state); [constructor|apply ex_run].
Qed.

Lemma size_delete_present (m : gmap string string) k :
  is_Some (m !! k) → size m = S (size (delete k m)).
Proof.
  intros [v Hv].
  rewrite <- (insert_id m k v Hv) at 1.
  rewrite <- insert_delete_eq.
  rewrite map_size_insert_None; [done|apply lookup_delete_eq].
Qed.

(** C7. In a reachable registry, [removeSocket(connId)] returns null and
    changes nothing when [connId] has no reverse-index entry.  When it has
    the entry [{code, role}], that entry is returned and deleted.  For a
    teacher the sessions are untouched.  For a student the socket is
    deleted from the participant map of session [code], nothing else in
    the sessions changes, and the [total] of that session's aggregate goes
    down by one. *)
Theorem removeSocket_spec (st : state) (id : string) :
  reachable st →
  match socketToSession st !! id with
  | None => removeSocket id st = (None, st)
  | Some i =>
      ∃ st', removeSocket id st = (Some i, st') ∧
        socketToSession st' = delete id (socketToSession st) ∧
        match role_of i with
        | teacher => sessions st' = sessions st
        | student =>
            ∃ s s', sessions st !! code i = Some s ∧
              sessions st' !! code i = Some s' ∧
              teacherSocketId s' = teacherSocketId s ∧
              createdAt s' = createdAt s ∧
              clients s' = delete id (clients s) ∧
              (∀ c', c' ≠ code i →
                     sessions st' !! c' = sessions st !! c') ∧
              ∃ agg agg' n,
                getAggregate (code i) st = Some agg ∧
                getAggregate (code i) st' = Some agg' ∧
                agg !! "total" = Some (Num (S n)) ∧
                agg' !! "total" = Some (Num n)
        end
  end.
Proof.
  intros Hreach. apply reachable_index_sound in Hreach.
  unfold removeSocket.
  destruct (socketToSession st !! id) as [i|] eqn:Hi; [|done].
  destruct (Hreach id i Hi) as (s & Hs & Hrole). rewrite Hs.
  eexists. split; [done|]. cbn [sessions socketToSession].
  split; [done|].
  destruct (role_of i); [done|].
  exists s. eexists. rewrite lookup_insert_eq. split_and!; try done.
  - intros c' Hne. by rewrite lookup_insert_ne.
  - unfold getAggregate. cbn [sessions]. rewrite Hs, lookup_insert_eq.
    cbn [clients]. do 3 eexists. split_and!; try done.
    + rewrite lookup_insert_eq. by rewrite (size_delete_present _ id).
    + by rewrite lookup_insert_eq.
Qed.

Lemma removeSocket_spec_witness :
  reachable ex_state ∧
  ∃ st' agg agg' n,
    removeSocket "X" ex_state = (Some (Info "AB23CD" student), st') ∧
    socketToSession st' !! "X" = None ∧
    getAggregate "AB23CD" ex_state = Some agg ∧
    getAggregate "AB23CD" st' = Some agg' ∧
    agg !! "total" = Some (Num (S n)) ∧ agg' !! "total" = Some (Num n).
Proof.
  split; [exact ex_reachable|].
  pose proof (removeSocket_spec ex_state "X" ex_reachable) as H.
  change (socketToSession ex_state !! "X")
    with (Some (Info "AB23CD" student)) in H.
  cbv iota in H. cbn [role_of code] in H.
  destruct H as (st' & Hrm & Hidx & s & s' & _ & _ & _ & _ & _ & _
                 & agg & agg' & n & Ha & Ha' & Ht & Ht').
  exists st', agg, agg', n. split_and!; try assumption.
  rewrite Hidx. apply lookup_delete_eq.
Defined.

(** C10. In a reachable registry every stored level is one of the four
    feedback levels, and so the four counters of every aggregate add up to
    its [total].  Every registry call keeps the levels valid: [addStudent]
    stores ["neutral"], [updateFeedback] stores only a level it has
    checked, and the other calls store no level. *)
Theorem levels_valid_aggregate_sum (st : state) :
  reachable st →
  levels_valid st ∧
  (∀ c agg, getAggregate c st = Some agg →
     ∃ g n cf l t,
       agg !! "gotit" = Some (Num g) ∧ agg !! "neutral" = Some (Num n) ∧
       agg !! "confused" = Some (Num cf) ∧ agg !! "lost" = Some (Num l) ∧
       agg !! "total" = Some (Num t) ∧ g + n + cf + l = t) ∧
  (∀ o st', step o st = Some st' → levels_valid st').
Proof.
  intros Hreach. apply reachable_levels_valid in Hreach. split_and!.
  - done.
  - intros c agg Hagg. unfold getAggregate in Hagg.
    destruct (sessions st !! c) as [s|] eqn:Hs; [|done].
    injection Hagg as <-.
    exists (tally "gotit" (values (clients s))),
           (tally "neutral" (values (clients s))),
           (tally "confused" (values (clients s))),
           (tally "lost" (values (clients s))),
           (size (clients s)).
    rewrite lookup_insert_eq.
    rewrite !lookup_insert_ne by done.
    rewrite !count_levels_lookup
      by (unfold FEEDBACK_LEVELS; repeat constructor).
    split_and!; try done.
    rewrite tally_sum; [apply length_values|].
    apply Forall_forall. intros l [k Hk]%elem_of_values.
    by eapply Hreach.
  - intros o st' Hstep. by eapply step_levels_valid.
Qed.

Lemma levels_valid_aggregate_sum_witness :
  reachable ex_state ∧ levels_valid ex_state ∧
  ∃ agg g n cf l t,
    getAggregate "AB23CD" ex_state = Some agg ∧
    agg !! "gotit" = Some (Num g) ∧ agg !! "neutral" = Some (Num n) ∧
    agg !! "confused" = Some (Num cf) ∧ agg !! "lost" = Some (Num l) ∧
    agg !! "total" = Some (Num t) ∧ g + n + cf + l = t.
Proof.
  split; [exact ex_reachable|].
  destruct (levels_valid_aggregate_sum ex_state ex_reachable)
    as (Hvalid & Hsum & _).
  split; [exact Hvalid|].
  destruct (Hsum "AB23CD" _ eq_refl) as (g & n & cf & l & t & H).
  eexists. exists g, n, cf, l, t. split; [reflexivity|exact H].
Defined.

Lemma createSession_code_witness :
  Forall (λ r, r < String.length chars) ex_draws ∧
  (∃ st', createSession "U" ex_draws 2000 ex_state = Some ("HHHHHH", st')) ∧
  String.length "HHHHHH" = 6 ∧
  Forall (λ a, a ∈ alphabet) (String.list_ascii_of_string "HHHHHH") ∧
  sessions ex_state !! "HHHHHH" = None.
Proof.
  assert (Hrnd : Forall (λ r, r < String.length chars) ex_draws).
  { unfold ex_draws. repeat (constructor; [vm_compute; lia|]). constructor. }
  split; [exact Hrnd|]. split; [eexists; reflexivity|].
  destruct (createSession_code ex_state _ "U" _ 2000 "HHHHHH" Hrnd eq_refl)
    as (Hlen & Hall & Hfree & _).
  split_and!; assumption.
Defined.

(** C1, as stated, fails: [addStudent] does not look at the session's
    teacher.  After [createSession("T")] has returned ["AB23CD"], the call
    [addStudent("AB23CD", "T")] enters ["T"] into the participant map of
    the session whose teacher is ["T"]. *)
Lemma owner_joins_own_session :
  run cx_owner_ops empty_state = Some cx_owner_state ∧
  reachable cx_owner_state ∧
  ¬ owner_not_participant cx_owner_state.
Proof.
  split; [reflexivity|]. split.
  - apply (run_reachable cx_owner_ops empty_state); [constructor|reflexivity].
  - intros H. specialize (H "AB23CD" _ eq_refl). vm_compute in H.
    discriminate.
Qed.

(** C1, amended.  In every registry reached by calls of [createSession],
    [addStudent], [updateFeedback], [removeSocket] and [endSession] among
    which no [addStudent(code, id)] names the teacher of session [code] as
    [id], no session has its teacher as a key of its participant map. *)
Theorem owner_not_participant_guarded (st : state) :
  reachable_under no_owner_join st → owner_not_participant st.
Proof.
  induction 1 as [|o st st' _ IH Hguard Hstep].
  - intros c s Hs. cbn in Hs. by rewrite lookup_empty in Hs.
  - by eapply step_owner_not_participant.
Qed.

Lemma owner_not_participant_guarded_witness :
  reachable_under no_owner_join ex_state ∧ owner_not_participant ex_state.
Proof.
  assert (Hreach : reachable_under no_owner_join ex_state).
  { eapply (reach_step _ (OpAdd "AB23CD" "X")
              (State (<["AB23CD" := Session "T" ∅ 1000]> ∅)
                     (<["T" := Info "AB23CD" teacher]> ∅))).
    - eapply (reach_step _ (OpCreate "T" [0; 1; 24; 25; 2; 3] 1000)
                empty_state).
      + constructor.
      + exact I.
      + reflexivity.
    - intros s Hs. vm_compute in Hs. injection Hs as <-. discriminate.
    - reflexivity. }
  split; [exact Hreach|].
  exact (owner_not_participant_guarded ex_state Hreach).
Defined.

(** C2, as stated, fails in the direction from membership to the index.
    After [createSession("T")] and [removeSocket("T")] the session
    ["AB23CD"] is still there with teacher ["T"], and ["T"] has no
    reverse-index entry. *)
Lemma teacher_left_unindexed :
  run cx_teacher_left_ops empty_state = Some cx_teacher_left ∧
  reachable cx_teacher_left ∧
  (∃ s, sessions cx_teacher_left !! "AB23CD" = Some s ∧
        teacherSocketId s = "T") ∧
  socketToSession cx_teacher_left !! "T" = None ∧
  ¬ index_consistent cx_teacher_left.
Proof.
  split; [reflexivity|]. split_and!.
  - apply (run_reachable cx_teacher_left_ops empty_state);
      [constructor|reflexivity].
  - eexists. split; reflexivity.
  - reflexivity.
  - intros [_ Hc].
    destruct (Hc "AB23CD" _ "T" eq_refl (or_introl eq_refl)) as [i Hi].
    vm_compute in Hi. discriminate.
Qed.

(** The same gap for a student: a socket that joins a second session
    keeps its place in the first one, and its only reverse-index entry, the
    one for the second session, goes when it disconnects. *)
Example student_left_in_first_session :
  ∃ st s,
    run [OpCreate "T" [0; 1; 24; 25; 2; 3] 1000;
         OpCreate "U" [7; 7; 7; 7; 7; 7] 1100;
         OpAdd "AB23CD" "X"; OpAdd "HHHHHH" "X"; OpRemove "X"]
        empty_state = Some st ∧
    sessions st !! "AB23CD" = Some s ∧
    clients s !! "X" = Some "neutral" ∧
    socketToSession st !! "X" = None.
Proof. do 2 eexists. split_and!; reflexivity. Qed.

(** C2, amended.  In every reachable registry each reverse-index entry
    [{code, role}] of a connection refers to an existing session of which
    the connection is the teacher (role teacher) or a key of the
    participant map (role student), and every registry call keeps it so.
    (The converse is not claimed.) *)
Theorem reverse_index_sound (st : state) :
  reachable st →
  index_sound st ∧ ∀ o st', step o st = Some st' → index_sound st'.
Proof.
  intros Hreach. apply reachable_index_sound in Hreach.
  split; [done|]. intros o st' Hstep. by eapply step_index_sound.
Qed.

Lemma reverse_index_sound_witness :
  reachable ex_state ∧ index_sound ex_state ∧
  index_sound (removeSocket "X" ex_state).2.
Proof.
  split; [exact ex_reachable|].
  destruct (reverse_index_sound ex_state ex_reachable) as [Hs Hstep].
  split; [exact Hs|].
  exact (Hstep (OpRemove "X") _ eq_refl).
Defined.

End RegistrySpec.

(** ** The event handlers against their descriptions *)
Module CoordinatorSpec.
Import Registry Trace Coordinator Props RegistryFacts.

Section Throttle.

Variable normalize : option string → string.

(** The handlers touch the timestamp of socket [id] only in the feedback
    handler of [id], when the event passes the throttle, and in the
    disconnect handler of [id]. *)
Lemma handle_last_feedback id ev st st' out :
  ev ≠ EvDisconnect id →
  handle normalize ev st = Some (st', out) →
  last_feedback id st' =
    match accepted id ev st with
    | Some t => t
    | None => last_feedback id st
    end.
Proof.
  intros Hev Hh.
  destruct ev as [id' rnd now|id' p|id' p l now|id' p|id']; simpl in *.
  - unfold on_createSession in Hh.
    destruct (createSession id' rnd now (registry st)) as [[c r']|];
      [|done].
    by injection Hh as <- <-.
  - unfold on_joinSession in Hh.
    destruct (negb (sessionExists (normalize p) (registry st)));
      [by injection Hh as <- <-|].
    destruct (addStudent (normalize p) id' (registry st)) as [[] r'];
      by injection Hh as <- <-.
  - unfold on_feedback in Hh.
    destruct (decide (id' = id)) as [->|Hne].
    + rewrite bool_decide_eq_true_2 by done.
      destruct (throttled id now st) eqn:Hthr; simpl;
        [by injection Hh as <- <-|].
      destruct (updateFeedback (normalize p) id l (registry st))
        as [[] r']; injection Hh as <- <-;
        unfold last_feedback; simpl; by rewrite lookup_insert_eq.
    + rewrite bool_decide_eq_false_2 by done. simpl.
      destruct (throttled id' now st); [by injection Hh as <- <-|].
      destruct (updateFeedback (normalize p) id' l (registry st))
        as [[] r']; injection Hh as <- <-;
        unfold last_feedback; simpl; by rewrite lookup_insert_ne.
  - unfold on_endSession in Hh. by injection Hh as <- <-.
  - unfold on_disconnect in Hh.
    destruct (removeSocket id' (registry st)) as [i r'].
    injection Hh as <- <-. unfold last_feedback. simpl.
    rewrite lookup_delete_ne; [done|]. congruence.
Qed.

Lemma accepted_not_throttled id ev st t :
  accepted id ev st = Some t →
  (THROTTLE_MS ≤ t - last_feedback id st)%Z.
Proof.
  destruct ev as [| |id' p l now| |]; simpl; try done.
  destruct (bool_decide (id' = id)); simpl; [|done].
  unfold throttled.
  destruct (Z.ltb_spec (now - last_feedback id st) THROTTLE_MS);
    simpl; [done|].
  by intros [= <-].
Qed.

(** The timestamp kept for a socket is that of its last accepted
    feedback. *)
Lemma run_last_feedback id evs : ∀ st st',
  EvDisconnect id ∉ evs →
  run_events normalize evs st = Some st' →
  last_feedback id st' =
    default (last_feedback id st) (last (accepted_times normalize id evs st)).
Proof.
  induction evs as [|ev evs IH]; intros st st' Hno Hrun;
    cbn [run_events accepted_times] in *.
  - by injection Hrun as <-.
  - apply not_elem_of_cons in Hno as [Hev Hno].
    destruct (handle normalize ev st) as [[st1 out]|] eqn:Hh; [|done].
    rewrite (IH st1 st' Hno Hrun).
    rewrite (handle_last_feedback id ev st st1 out) by done.
    destruct (accepted id ev st) as [t|]; [|done].
    rewrite last_cons.
    by destruct (last (accepted_times normalize id evs st1)).
Qed.

Lemma accepted_times_spaced id evs : ∀ st,
  EvDisconnect id ∉ evs →
  spaced (accepted_times normalize id evs st) ∧
  Forall (λ t, (THROTTLE_MS ≤ t - last_feedback id st)%Z)
         (accepted_times normalize id evs st).
Proof.
  unfold spaced.
  induction evs as [|ev evs IH]; intros st Hno; cbn [accepted_times].
  - split; constructor.
  - apply not_elem_of_cons in Hno as [Hev Hno].
    destruct (handle normalize ev st) as [[st1 out]|] eqn:Hh;
      [|split; constructor].
    destruct (IH st1 Hno) as [Hsp Hge].
    rewrite (handle_last_feedback id ev st st1 out) in Hge by done.
    destruct (accepted id ev st) as [t|] eqn:Hacc; [|done].
    apply accepted_not_throttled in Hacc. split.
    + by constructor.
    + constructor; [done|].
      eapply Forall_impl; [exact Hge|]. simpl. unfold THROTTLE_MS in *.
      intros t' Ht'. lia.
Qed.

(** The feedback handler goes on to [updateFeedback] exactly for the
    events counted by [accepted]; every other feedback event leaves the
    state as it is and sends nothing. *)
Lemma on_feedback_accepted id p l now st :
  on_feedback normalize id p l now st =
    match accepted id (EvFeedback id p l now) st with
    | Some _ =>
        (CState (updateFeedback (normalize p) id l (registry st)).2
                (<[id := now]> (lastFeedbackTime st)),
         if (updateFeedback (normalize p) id l (registry st)).1
         then [EmitRoom (normalize p)
                 (AggregateUpdate
                    (getAggregate (normalize p)
                       (updateFeedback (normalize p) id l (registry st)).2))]
         else [])
    | None => (st, [])
    end.
Proof.
  unfold accepted, on_feedback. rewrite bool_decide_eq_true_2 by done.
  destruct (throttled id now st); simpl; [done|].
  by destruct (updateFeedback (normalize p) id l (registry st)) as [[] r'].
Qed.

(** C5. While socket [id] stays connected: the feedback events of [id]
    that pass the throttle are pairwise at least 500 apart; a feedback
    event of [id] that arrives less than 500 after the last one that
    passed is dropped, with no message sent and no change of state; one
    that arrives 500 or more after it passes the throttle, its time is
    recorded and [updateFeedback] is called. *)
Theorem feedback_throttle (id : string) (evs : list event) (st0 : cstate) :
  EvDisconnect id ∉ evs →
  spaced (accepted_times normalize id evs st0) ∧
  ∀ st t p l now,
    run_events normalize evs st0 = Some st →
    last (accepted_times normalize id evs st0) = Some t →
    ((now - t < THROTTLE_MS)%Z →
       on_feedback normalize id p l now st = (st, [])) ∧
    ((THROTTLE_MS ≤ now - t)%Z →
       accepted id (EvFeedback id p l now) st = Some now ∧
       (on_feedback normalize id p l now st).1 =
         CState (updateFeedback (normalize p) id l (registry st)).2
                (<[id := now]> (lastFeedbackTime st))).
Proof.
  intros Hno. split; [by apply accepted_times_spaced|].
  intros st t p l now Hrun Hlast.
  pose proof (run_last_feedback id evs st0 st Hno Hrun) as Hlf.
  rewrite Hlast in Hlf. simpl in Hlf.
  unfold accepted, on_feedback, throttled. rewrite Hlf.
  destruct (Z.ltb_spec (now - t) THROTTLE_MS) as [Hlt|Hge]; split;
    try done; try lia.
  intros _. rewrite bool_decide_eq_true_2 by done. split; [done|].
  by destruct (updateFeedback (normalize p) id l (registry st)) as [[] r'].
Qed.

End Throttle.

Lemma feedback_throttle_witness :
  (EvDisconnect "X" ∉ ex_events) ∧
  accepted_times ascii_normalize "X" ex_events init = [2000%Z] ∧
  ∃ st, run_events ascii_normalize ex_events init = Some st ∧
    on_feedback ascii_normalize "X" (Some "AB23CD") "lost" 2400 st
      = (st, []) ∧
    accepted "X" (EvFeedback "X" (Some "AB23CD") "lost" 2500) st
      = Some 2500%Z.
Proof.
  assert (Hno : EvDisconnect "X" ∉ ex_events).
  { intros H. unfold ex_events in H.
    repeat (apply elem_of_cons in H as [H|H]; [discriminate|]).
    by apply elem_of_nil in H. }
  split; [exact Hno|]. split; [reflexivity|].
  destruct (feedback_throttle ascii_normalize "X" ex_events init Hno)
    as [_ Hstep].
  eexists. split; [reflexivity|].
  split.
  - refine (proj1 (Hstep _ 2000%Z _ _ 2400%Z eq_refl eq_refl) _).
    reflexivity.
  - refine (proj1 (proj2 (Hstep _ 2000%Z _ "lost" 2500%Z eq_refl eq_refl) _)).
    discriminate.
Defined.

(** Whatever the payload, the join handler does not send its second
    error. *)
Lemma on_joinSession_no_second_error normalize id payload st :
  (Emit id (JoinError "Could not join session."))
    ∉ (on_joinSession normalize id payload st).2.
Proof.
  unfold on_joinSession, sessionExists, addStudent.
  destruct (sessions (registry st) !! normalize payload) as [s|] eqn:Hs.
  - rewrite bool_decide_eq_true_2 by done. simpl.
    intros H. repeat (apply elem_of_cons in H as [H|H]; [discriminate|]).
    by apply elem_of_nil in H.
  - rewrite bool_decide_eq_false_2 by (by intros [? ?]). simpl.
    intros H. repeat (apply elem_of_cons in H as [H|H]; [discriminate|]).
    by apply elem_of_nil in H.
Qed.

(** C9. When [sessionExists(code)] is true, the [addStudent(code, connId)]
    that follows it returns true; the join handler then takes its success
    path, so its "Could not join session." branch is never taken. *)
Theorem joinSession_addStudent_succeeds (st : state) (c id : string) :
  sessionExists c st = true →
  (addStudent c id st).1 = true ∧
  ∀ normalize lft payload, normalize payload = c →
    on_joinSession normalize id payload (CState st lft) =
      (CState (addStudent c id st).2 lft,
       [Join id c; Emit id (JoinedSession c);
        EmitRoom c (AggregateUpdate
                      (getAggregate c (addStudent c id st).2))]).
Proof.
  intros Hex. unfold sessionExists in Hex.
  apply bool_decide_eq_true in Hex as [s Hs].
  split.
  - unfold addStudent. by rewrite Hs.
  - intros normalize lft payload <-.
    unfold on_joinSession, sessionExists, addStudent. cbn [registry].
    rewrite Hs. by rewrite bool_decide_eq_true_2.
Qed.

Lemma joinSession_addStudent_succeeds_witness :
  sessionExists "AB23CD" ex_state = true ∧
  (addStudent "AB23CD" "Y" ex_state).1 = true.
Proof.
  split; [reflexivity|].
  exact (proj1 (joinSession_addStudent_succeeds
                  ex_state "AB23CD" "Y" eq_refl)).
Defined.

(** The two failing scenarios of the registry, as the server meets them:
    a teacher's socket sends [joinSession] with its own code, and a
    teacher's socket disconnects. *)
Example teacher_joins_by_event :
  ∃ st, run_events ascii_normalize
          [EvCreate "T" [0; 1; 24; 25; 2; 3] 1000;
           EvJoin "T" (Some "ab23cd")] init = Some st ∧
        registry st = cx_owner_state.
Proof. eexists. split; reflexivity. Qed.

Example teacher_disconnects_by_event :
  ∃ st, run_events ascii_normalize
          [EvCreate "T" [0; 1; 24; 25; 2; 3] 1000;
           EvDisconnect "T"] init = Some st ∧
        registry st = cx_teacher_left.
Proof. eexists. split; reflexivity. Qed.

End CoordinatorSpec.

(** ** Further properties of the registry *)
Module RegistryExtra.
Import Registry Trace Props MoreProps RegistryFacts.

(** *** Counters *)

Lemma counter_total st c s :
  sessions st !! c = Some s → counter c "total" st = Some (size (clients s)).
Proof.
  intros Hs. unfold counter, getAggregate. rewrite Hs.
  by rewrite lookup_insert_eq.
Qed.

Lemma counter_level st c s l :
  sessions st !! c = Some s → l ∈ FEEDBACK_LEVELS →
  counter c l st = Some (participants_at l (clients s)).
Proof.
  intros Hs Hl. unfold counter, getAggregate. rewrite Hs.
  rewrite lookup_insert_ne.
  - rewrite count_levels_lookup by done. by rewrite participants_at_tally.
  - intros <-. unfold FEEDBACK_LEVELS in Hl.
    repeat (apply elem_of_cons in Hl as [?|Hl]; [done|]).
    by apply elem_of_nil in Hl.
Qed.

Lemma participants_at_insert_fresh (m : gmap string string) k v l :
  m !! k = None →
  participants_at l (<[k := v]> m)
    = (if decide (v = l) then 1 else 0) + participants_at l m.
Proof.
  intros Hk. unfold participants_at. case_decide as Hv.
  - rewrite map_filter_insert_True by done.
    rewrite map_size_insert_None; [done|].
    rewrite map_lookup_filter_None. by left.
  - rewrite map_filter_insert_False by done. by rewrite delete_id.
Qed.

Lemma participants_at_present (m : gmap string string) k v l :
  m !! k = Some v →
  participants_at l m
    = (if decide (v = l) then 1 else 0) + participants_at l (delete k m).
Proof.
  intros Hk. rewrite <- (insert_id m k v Hk) at 1.
  rewrite <- insert_delete_eq.
  apply participants_at_insert_fresh, lookup_delete_eq.
Qed.

Lemma participants_at_insert (m : gmap string string) k v l :
  participants_at l (<[k := v]> m)
    = (if decide (v = l) then 1 else 0) + participants_at l (delete k m).
Proof.
  rewrite <- insert_delete_eq.
  apply participants_at_insert_fresh, lookup_delete_eq.
Qed.

Lemma size_insert_present (m : gmap string string) k v :
  is_Some (m !! k) → size (<[k := v]> m) = size m.
Proof.
  intros Hk. rewrite <- insert_delete_eq.
  rewrite map_size_insert_None by apply lookup_delete_eq.
  destruct Hk as [v0 Hv0].
  rewrite <- (insert_id m k v0 Hv0) at 2. rewrite <- insert_delete_eq.
  by rewrite map_size_insert_None by apply lookup_delete_eq.
Qed.

(** *** Joining *)

(** X1. [addStudent(code, socketId)] on a code without session returns
    false and changes nothing.  Otherwise it returns true; in session
    [code] the socket holds "neutral", the teacher, the creation time and
    all other participants are as before; every other session is as
    before; the reverse-index entry of the socket is [{code, student}],
    whatever it was, and all other entries are as before. *)
Theorem addStudent_spec (st : state) (c id : string) :
  match sessions st !! c with
  | None => addStudent c id st = (false, st)
  | Some s =>
      ∃ st' s', addStudent c id st = (true, st') ∧
        sessions st' !! c = Some s' ∧
        teacherSocketId s' = teacherSocketId s ∧
        createdAt s' = createdAt s ∧
        clients s' !! id = Some "neutral" ∧
        (∀ id', id' ≠ id → clients s' !! id' = clients s !! id') ∧
        (∀ c', c' ≠ c → sessions st' !! c' = sessions st !! c') ∧
        socketToSession st' !! id = Some (Info c student) ∧
        (∀ id', id' ≠ id →
                socketToSession st' !! id' = socketToSession st !! id')
  end.
Proof.
  unfold addStudent. destruct (sessions st !! c) as [s|] eqn:Hs; [|done].
  do 2 eexists. split; [done|]. cbn [sessions socketToSession].
  rewrite !lookup_insert_eq. split_and!; try done.
  - cbn. by rewrite lookup_insert_eq.
  - intros id' Hne. cbn. by rewrite lookup_insert_ne.
  - intros c' Hne. by rewrite lookup_insert_ne.
  - intros id' Hne. by rewrite lookup_insert_ne.
Qed.

(** X2. Joining again is harmless: a second identical [addStudent] call
    returns what the first returned and leaves the registry as the first
    left it. *)
Theorem addStudent_idempotent (st : state) (c id : string) :
  addStudent c id (addStudent c id st).2 = addStudent c id st.
Proof.
  unfold addStudent at 2 3. destruct (sessions st !! c) as [s|] eqn:Hs.
  - cbn [snd]. unfold addStudent. cbn [sessions socketToSession].
    rewrite lookup_insert_eq. cbn [teacherSocketId clients createdAt].
    by rewrite !insert_insert_eq.
  - cbn [snd]. unfold addStudent. by rewrite Hs.
Qed.

(** X3. A join changes the aggregate of the session by the joiner only.
    For a socket that was not a participant, [total] and [neutral] go up
    by one.  For a socket that was a participant at level [l0], [total]
    stays and one unit moves from [l0] to [neutral].  The other counters
    stay. *)
Theorem addStudent_counters (st : state) (c id : string) (s : session) :
  sessions st !! c = Some s →
  let st' := (addStudent c id st).2 in
  match clients s !! id with
  | None =>
      counter c "total" st' = Some (S (size (clients s))) ∧
      ∀ l, l ∈ FEEDBACK_LEVELS →
        counter c l st'
          = Some ((if decide ("neutral" = l) then 1 else 0)
                  + participants_at l (clients s))
  | Some l0 =>
      counter c "total" st' = Some (size (clients s)) ∧
      ∀ l, l ∈ FEEDBACK_LEVELS →
        ∃ n n', counter c l st = Some n ∧ counter c l st' = Some n' ∧
          n' + (if decide (l0 = l) then 1 else 0)
            = n + (if decide ("neutral" = l) then 1 else 0)
  end.
Proof.
  intros Hs st'.
  assert (Hs' : sessions st' !! c
                = Some (Session (teacherSocketId s)
                          (<[id := "neutral"]> (clients s)) (createdAt s))).
  { unfold st', addStudent. rewrite Hs. cbn. by rewrite lookup_insert_eq. }
  destruct (clients s !! id) as [l0|] eqn:Hid.
  - split.
    + rewrite (counter_total _ _ _ Hs'). cbn [clients].
      by rewrite size_insert_present.
    + intros l Hl. do 2 eexists.
      rewrite (counter_level _ _ _ _ Hs Hl), (counter_level _ _ _ _ Hs' Hl).
      split_and!; try done. cbn [clients].
      rewrite participants_at_insert, (participants_at_present _ _ _ _ Hid).
      lia.
  - split.
    + rewrite (counter_total _ _ _ Hs'). cbn [clients].
      by rewrite map_size_insert_None.
    + intros l Hl. rewrite (counter_level _ _ _ _ Hs' Hl). cbn [clients].
      by rewrite participants_at_insert_fresh.
Qed.

Lemma addStudent_counters_witness :
  sessions ex_state !! "AB23CD"
    = Some (Session "T" (<["X" := "neutral"]> ∅) 1000) ∧
  counter "AB23CD" "total" (addStudent "AB23CD" "Y" ex_state).2 = Some 2 ∧
  counter "AB23CD" "neutral" (addStudent "AB23CD" "Y" ex_state).2
    = Some 2.
Proof.
  split; [reflexivity|].
  pose proof (addStudent_counters ex_state "AB23CD" "Y" _ eq_refl) as H.
  cbv zeta in H.
  change (clients (Session "T" (<["X" := "neutral"]> ∅) 1000) !! "Y")
    with (@None string) in H.
  cbv iota in H. destruct H as [Ht Hl]. split.
  - exact Ht.
  - rewrite (Hl "neutral") by (unfold FEEDBACK_LEVELS; repeat constructor).
    reflexivity.
Defined.

(** *** Changing a level *)

(** X4. An accepted [updateFeedback] moves one unit of the aggregate from
    the participant's old level to the new one: [total] stays, and for
    each of the four levels the counter after, plus one if it is the old
    level, equals the counter before, plus one if it is the new level. *)
Theorem updateFeedback_counters (st : state) (c id l0 l1 : string)
    (s : session) :
  sessions st !! c = Some s → clients s !! id = Some l0 →
  l1 ∈ FEEDBACK_LEVELS →
  let st' := (updateFeedback c id l1 st).2 in
  (updateFeedback c id l1 st).1 = true ∧
  counter c "total" st' = counter c "total" st ∧
  ∀ l, l ∈ FEEDBACK_LEVELS →
    ∃ n n', counter c l st = Some n ∧ counter c l st' = Some n' ∧
      n' + (if decide (l0 = l) then 1 else 0)
        = n + (if decide (l1 = l) then 1 else 0).
Proof.
  intros Hs Hid Hl1 st'.
  assert (Hrun : updateFeedback c id l1 st
                 = (true, State (<[c := Session (teacherSocketId s)
                                          (<[id := l1]> (clients s))
                                          (createdAt s)]> (sessions st))
                                (socketToSession st))).
  { unfold updateFeedback. rewrite bool_decide_eq_true_2 by done.
    rewrite Hs. by rewrite bool_decide_eq_true_2 by done. }
  assert (Hs' : sessions st' !! c
                = Some (Session (teacherSocketId s)
                          (<[id := l1]> (clients s)) (createdAt s))).
  { unfold st'. rewrite Hrun. cbn. by rewrite lookup_insert_eq. }
  split_and!.
  - by rewrite Hrun.
  - rewrite (counter_total _ _ _ Hs'), (counter_total _ _ _ Hs).
    cbn [clients]. by rewrite size_insert_present.
  - intros l Hl. do 2 eexists.
    rewrite (counter_level _ _ _ _ Hs Hl), (counter_level _ _ _ _ Hs' Hl).
    split_and!; try done. cbn [clients].
    rewrite participants_at_insert, (participants_at_present _ _ _ _ Hid).
    lia.
Qed.

Lemma updateFeedback_counters_witness :
  (updateFeedback "AB23CD" "X" "lost" ex_state).1 = true ∧
  counter "AB23CD" "lost" (updateFeedback "AB23CD" "X" "lost" ex_state).2
    = Some 1 ∧
  counter "AB23CD" "neutral"
    (updateFeedback "AB23CD" "X" "lost" ex_state).2 = Some 0.
Proof.
  assert (Hlost : "lost" ∈ FEEDBACK_LEVELS)
    by (unfold FEEDBACK_LEVELS; repeat constructor).
  destruct (updateFeedback_counters ex_state "AB23CD" "X" "neutral" "lost"
              _ eq_refl eq_refl Hlost) as (Hr & _ & _).
  split; [exact Hr|]. split; reflexivity.
Defined.

(** *** Leaving *)

(** X5. When a student's socket is removed, the counter of the level it
    held goes down by one and the counters of the other levels stay. *)
Theorem removeSocket_counters (st : state) (id l0 : string) (i : info)
    (s : session) :
  socketToSession st !! id = Some i → role_of i = student →
  sessions st !! code i = Some s → clients s !! id = Some l0 →
  let st' := (removeSocket id st).2 in
  ∀ l, l ∈ FEEDBACK_LEVELS →
    ∃ n n', counter (code i) l st = Some n ∧
            counter (code i) l st' = Some n' ∧
            n = (if decide (l0 = l) then 1 else 0) + n'.
Proof.
  intros Hi Hrole Hs Hid st' l Hl.
  assert (Hs' : sessions st' !! code i
                = Some (Session (teacherSocketId s)
                          (delete id (clients s)) (createdAt s))).
  { unfold st', removeSocket. rewrite Hi, Hs, Hrole. cbn.
    by rewrite lookup_insert_eq. }
  do 2 eexists.
  rewrite (counter_level _ _ _ _ Hs Hl), (counter_level _ _ _ _ Hs' Hl).
  split_and!; try done. cbn [clients].
  by rewrite (participants_at_present _ _ _ _ Hid).
Qed.

Lemma removeSocket_counters_witness :
  socketToSession ex_state !! "X" = Some (Info "AB23CD" student) ∧
  ∃ n n', counter "AB23CD" "neutral" ex_state = Some n ∧
          counter "AB23CD" "neutral" (removeSocket "X" ex_state).2
            = Some n' ∧
          n = 1 + n'.
Proof.
  split; [reflexivity|].
  assert (Hn : "neutral" ∈ FEEDBACK_LEVELS)
    by (unfold FEEDBACK_LEVELS; repeat constructor).
  destruct (removeSocket_counters ex_state "X" "neutral"
              (Info "AB23CD" student) _ eq_refl eq_refl eq_refl eq_refl
              "neutral" Hn) as (n & n' & H1 & H2 & H3).
  exists n, n'. split_and!; [exact H1|exact H2|].
  rewrite H3. by rewrite decide_True.
Defined.

(** X6. Join, then disconnect: for a socket that has no reverse-index
    entry and is not a participant of the session, [removeSocket] after
    [addStudent] returns [{code, student}] and the registry is exactly as
    it was before the join. *)
Theorem addStudent_removeSocket (st : state) (c id : string) (s : session) :
  sessions st !! c = Some s → clients s !! id = None →
  socketToSession st !! id = None →
  removeSocket id (addStudent c id st).2 = (Some (Info c student), st).
Proof.
  intros Hs Hid Hidx. unfold addStudent. rewrite Hs. cbn [snd].
  unfold removeSocket. cbn [sessions socketToSession].
  rewrite lookup_insert_eq. cbn [code role_of].
  rewrite lookup_insert_eq. cbn [teacherSocketId clients createdAt].
  f_equal. destruct st as [ss idx]. cbn in *. f_equal.
  - rewrite insert_insert_eq, delete_insert_id by done.
    destruct s. by apply insert_id.
  - by rewrite delete_insert_id.
Qed.

Lemma addStudent_removeSocket_witness :
  clients (Session "T" (<["X" := "neutral"]> ∅) 1000) !! "Y" = None ∧
  socketToSession ex_state !! "Y" = None ∧
  removeSocket "Y" (addStudent "AB23CD" "Y" ex_state).2
    = (Some (Info "AB23CD" student), ex_state).
Proof.
  split; [reflexivity|]. split; [reflexivity|].
  exact (addStudent_removeSocket ex_state "AB23CD" "Y" _
           eq_refl eq_refl eq_refl).
Defined.

(** *** Creating and ending *)

(** X7. [createSession(teacherSocketId)] adds a session with that teacher,
    no participant and the current time, whose aggregate is all zero.
    Every session that existed is kept as it was, with its aggregate.  The
    reverse-index entry of the teacher becomes [{code, teacher}], whatever
    it was; the other entries stay. *)
Theorem createSession_spec (st st' : state) (t : string) (rnd : list nat)
    (now : Z) (c : string) :
  createSession t rnd now st = Some (c, st') →
  sessions st' !! c = Some (Session t ∅ now) ∧
  (∀ l, l ∈ "total" :: FEEDBACK_LEVELS → counter c l st' = Some 0) ∧
  (∀ c', is_Some (sessions st !! c') →
         sessions st' !! c' = sessions st !! c' ∧
         getAggregate c' st' = getAggregate c' st) ∧
  (∀ c', c' ≠ c → sessions st' !! c' = sessions st !! c') ∧
  socketToSession st' !! t = Some (Info c teacher) ∧
  (∀ id, id ≠ t → socketToSession st' !! id = socketToSession st !! id).
Proof.
  intros Hcreate. unfold createSession in Hcreate.
  destruct (generateCode rnd (sessions st)) as [c0|] eqn:Hg; [|done].
  injection Hcreate as -> <-. apply generateCode_fresh in Hg.
  cbn [sessions socketToSession].
  assert (Hnew : (<[c := Session t ∅ now]> (sessions st)) !! c
                 = Some (Session t ∅ now)) by apply lookup_insert_eq.
  assert (Hold : ∀ c', is_Some (sessions st !! c') →
            (<[c := Session t ∅ now]> (sessions st)) !! c'
              = sessions st !! c').
  { intros c' [s' Hs']. rewrite lookup_insert_ne; [done|].
    intros ->. congruence. }
  split_and!.
  - done.
  - intros l [->|Hl]%elem_of_cons.
    + by rewrite (counter_total _ _ (Session t ∅ now)).
    + rewrite (counter_level _ _ (Session t ∅ now)) by done.
      cbn [clients]. unfold participants_at. by rewrite map_filter_empty.
  - intros c' Hc'. split; [by apply Hold|].
    unfold getAggregate. cbn [sessions]. by rewrite Hold.
  - intros c' Hne. by rewrite lookup_insert_ne.
  - by rewrite lookup_insert_eq.
  - intros id Hne. by rewrite lookup_insert_ne.
Qed.

Lemma createSession_spec_witness :
  ∃ st', createSession "U" ex_draws 2000 ex_state = Some ("HHHHHH", st') ∧
    sessions st' !! "HHHHHH" = Some (Session "U" ∅ 2000) ∧
    getAggregate "AB23CD" st' = getAggregate "AB23CD" ex_state.
Proof.
  eexists. split; [reflexivity|].
  destruct (createSession_spec ex_state _ "U" ex_draws 2000 "HHHHHH"
              eq_refl) as (Hnew & _ & Hold & _).
  split; [exact Hnew|].
  apply Hold. eexists. reflexivity.
Defined.

(** X8. Create, then end: when the teacher's socket had no reverse-index
    entry, [endSession] of the code that [createSession] returned gives
    back exactly the registry from before the creation. *)
Theorem createSession_endSession (st st' : state) (t : string)
    (rnd : list nat) (now : Z) (c : string) :
  createSession t rnd now st = Some (c, st') →
  socketToSession st !! t = None →
  endSession c st' = (true, st).
Proof.
  intros Hcreate Hidx. unfold createSession in Hcreate.
  destruct (generateCode rnd (sessions st)) as [c0|] eqn:Hg; [|done].
  injection Hcreate as -> <-. apply generateCode_fresh in Hg.
  unfold endSession. cbn [sessions socketToSession].
  rewrite lookup_insert_eq. cbn [teacherSocketId clients].
  f_equal. destruct st as [ss idx]. cbn in *. f_equal.
  - by rewrite delete_insert_id.
  - unfold keys. rewrite map_to_list_empty. cbn.
    by rewrite delete_insert_id.
Qed.

Lemma createSession_endSession_witness :
  socketToSession ex_state !! "U" = None ∧
  ∃ st', createSession "U" ex_draws 2000 ex_state = Some ("HHHHHH", st') ∧
         endSession "HHHHHH" st' = (true, ex_state).
Proof.
  split; [reflexivity|]. eexists. split; [reflexivity|].
  exact (createSession_endSession ex_state _ "U" ex_draws 2000 "HHHHHH"
           eq_refl eq_refl).
Defined.

(** X9. A session keeps its teacher and its creation time, and it is
    removed by nothing but [endSession] of its own code: after any other
    registry call the session is still there with the same teacher and
    the same creation time. *)
Theorem session_stable (o : op) (st st' : state) (c : string) (s : session) :
  step o st = Some st' → sessions st !! c = Some s → o ≠ OpEnd c →
  ∃ s', sessions st' !! c = Some s' ∧
        teacherSocketId s' = teacherSocketId s ∧
        createdAt s' = createdAt s.
Proof.
  intros Hstep Hs Hend.
  destruct o as [t rnd now|c0 sid|c0 sid l|sid|c0]; simpl in Hstep.
  - unfold createSession in Hstep.
    destruct (generateCode rnd (sessions st)) as [c1|] eqn:Hg; [|done].
    apply generateCode_fresh in Hg. injection Hstep as <-.
    exists s. cbn. split; [|done].
    rewrite lookup_insert_ne; [done|]. intros ->. congruence.
  - injection Hstep as <-. unfold addStudent.
    destruct (sessions st !! c0) as [s0|] eqn:Hc0; [|by exists s].
    cbn. destruct (decide (c0 = c)) as [->|Hne].
    + rewrite lookup_insert_eq. eexists. split; [done|].
      assert (s0 = s) as -> by congruence. done.
    + rewrite lookup_insert_ne by done. by exists s.
  - injection Hstep as <-. unfold updateFeedback.
    case_bool_decide; [|by exists s].
    destruct (sessions st !! c0) as [s0|] eqn:Hc0; [|by exists s].
    case_bool_decide; [|by exists s].
    cbn. destruct (decide (c0 = c)) as [->|Hne].
    + rewrite lookup_insert_eq. eexists. split; [done|].
      assert (s0 = s) as -> by congruence. done.
    + rewrite lookup_insert_ne by done. by exists s.
  - injection Hstep as <-. unfold removeSocket.
    destruct (socketToSession st !! sid) as [i|]; [|by exists s].
    cbn. destruct (sessions st !! code i) as [s0|] eqn:Hc0; [|by exists s].
    destruct (role_of i); [by exists s|].
    destruct (decide (code i = c)) as [Heq|Hne].
    + rewrite Heq in *. rewrite lookup_insert_eq. eexists. split; [done|].
      assert (s0 = s) as -> by congruence. done.
    + rewrite lookup_insert_ne by done. by exists s.
  - injection Hstep as <-. unfold endSession.
    destruct (sessions st !! c0) as [s0|] eqn:Hc0; [|by exists s].
    cbn. exists s. split; [|done].
    rewrite lookup_delete_ne; [done|]. congruence.
Qed.

Lemma session_stable_witness :
  ∃ s', sessions (removeSocket "T" ex_state).2 !! "AB23CD" = Some s' ∧
        teacherSocketId s' = "T" ∧ createdAt s' = 1000%Z.
Proof.
  assert (Hne : OpRemove "T" ≠ OpEnd "AB23CD") by discriminate.
  exact (session_stable (OpRemove "T") ex_state _ "AB23CD" _
           eq_refl eq_refl Hne).
Defined.

(** X22. Sessions do not disturb each other: a registry call that does
    not name session [c], and is not the removal of a socket indexed under
    [c], leaves session [c] exactly as it was; so its participants, their
    levels and its aggregate are unchanged. *)
Theorem session_isolated (o : op) (st st' : state) (c : string)
    (s : session) :
  step o st = Some st' → sessions st !! c = Some s → ¬ touches o st c →
  sessions st' !! c = Some s ∧ getAggregate c st' = getAggregate c st.
Proof.
  intros Hstep Hs Hno.
  assert (Hsame : sessions st' !! c = Some s).
  { destruct o as [t rnd now|c0 sid|c0 sid l|sid|c0]; cbn in Hstep, Hno.
    - unfold createSession in Hstep.
      destruct (generateCode rnd (sessions st)) as [c1|] eqn:Hg; [|done].
      apply generateCode_fresh in Hg. injection Hstep as <-. cbn.
      rewrite lookup_insert_ne; [done|]. intros ->. congruence.
    - injection Hstep as <-. unfold addStudent.
      destruct (sessions st !! c0); [|done]. cbn.
      by rewrite lookup_insert_ne.
    - injection Hstep as <-. unfold updateFeedback.
      case_bool_decide; [|done].
      destruct (sessions st !! c0) as [s0|]; [|done].
      case_bool_decide; [|done]. cbn. by rewrite lookup_insert_ne.
    - injection Hstep as <-. unfold removeSocket.
      destruct (socketToSession st !! sid) as [i|] eqn:Hi; [|done].
      cbn. destruct (sessions st !! code i) as [s0|]; [|done].
      destruct (role_of i); [done|].
      rewrite lookup_insert_ne; [done|]. intros Heq. apply Hno. eauto.
    - injection Hstep as <-. unfold endSession.
      destruct (sessions st !! c0); [|done]. cbn.
      by rewrite lookup_delete_ne. }
  split; [done|]. unfold getAggregate. by rewrite Hsame, Hs.
Qed.

Lemma session_isolated_witness :
  ¬ touches (OpAdd "HHHHHH" "X") ex_state "AB23CD" ∧
  getAggregate "AB23CD" (addStudent "HHHHHH" "X" ex_state).2
    = getAggregate "AB23CD" ex_state.
Proof.
  assert (Hno : ¬ touches (OpAdd "HHHHHH" "X") ex_state "AB23CD")
    by (cbn; discriminate).
  split; [exact Hno|].
  exact (proj2 (session_isolated (OpAdd "HHHHHH" "X") ex_state _ "AB23CD" _
                  eq_refl eq_refl Hno)).
Defined.

(** *** Code generation *)





Lemma draw_code_word n : ∀ ds acc c rest,
  draw_code n ds acc = Some (c, rest) → c = acc +:+ word n ds.
Proof.
  induction n as [|n IH]; intros ds acc c rest Hd; cbn [draw_code] in Hd.
  - injection Hd as <- <-. destruct ds; cbn; by rewrite string_app_nil_r.
  - destruct ds as [|r ds]; [done|]. cbn [word].
    rewrite (IH _ _ _ _ Hd). by rewrite string_app_assoc.
Qed.

Lemma char_at_chars_inj r1 r2 :
  r1 < String.length chars → r2 < String.length chars →
  char_at chars r1 = char_at chars r2 → r1 = r2.
Proof.
  assert (Hall : Forall (λ a : nat, Forall (λ b : nat,
            char_at chars a = char_at chars b → a = b)
            (seq 0 (String.length chars))) (seq 0 (String.length chars))).
  { apply (bool_decide_unpack _). by vm_compute. }
  intros H1 H2. rewrite Forall_forall in Hall.
  assert (Hr1 : r1 ∈ seq 0 (String.length chars)) by (apply elem_of_seq; lia).
  specialize (Hall r1 Hr1). rewrite Forall_forall in Hall.
  apply Hall. apply elem_of_seq. lia.
Qed.

Lemma word_inj n : ∀ ds1 ds2,
  Forall (λ r, r < String.length chars) ds1 →
  Forall (λ r, r < String.length chars) ds2 →
  length ds1 = n → length ds2 = n →
  word n ds1 = word n ds2 → ds1 = ds2.
Proof.
  induction n as [|n IH]; intros ds1 ds2 H1 H2 Hl1 Hl2 Hw.
  - destruct ds1, ds2; done.
  - destruct ds1 as [|r1 ds1], ds2 as [|r2 ds2]; try done.
    apply Forall_cons in H1 as [Hr1 H1]. apply Forall_cons in H2 as [Hr2 H2].
    cbn [word] in Hw.
    destruct (char_at_chars r1 Hr1) as (a1 & Ha1 & _).
    destruct (char_at_chars r2 Hr2) as (a2 & Ha2 & _).
    rewrite Ha1, Ha2, !string_app_cons, !string_app_nil_l in Hw.
    injection Hw as Ha Hw. f_equal.
    + apply char_at_chars_inj; try done. by rewrite Ha1, Ha2, Ha.
    + apply IH; try done; cbn in *; lia.
Qed.

(** X11. Different draws give different codes: two attempts of six draws
    below 32 that spell the same code are the same six draws.  (So the six
    draws can be read back from a code, and there are 32^6 codes.) *)
Theorem draw_code_injective (ds1 ds2 : list nat) (c : string)
    (rest1 rest2 : list nat) :
  Forall (λ r, r < String.length chars) ds1 →
  Forall (λ r, r < String.length chars) ds2 →
  length ds1 = 6 → length ds2 = 6 →
  draw_code 6 ds1 "" = Some (c, rest1) →
  draw_code 6 ds2 "" = Some (c, rest2) →
  ds1 = ds2.
Proof.
  intros H1 H2 Hl1 Hl2 Hd1 Hd2.
  apply draw_code_word in Hd1, Hd2. rewrite string_app_nil_l in Hd1, Hd2.
  apply (word_inj 6); congruence.
Qed.

Lemma draw_code_injective_witness :
  Forall (λ r, r < String.length chars) [0; 1; 24; 25; 2; 3] ∧
  draw_code 6 [0; 1; 24; 25; 2; 3] "" = Some ("AB23CD", []) ∧
  ∀ ds, Forall (λ r, r < String.length chars) ds → length ds = 6 →
        draw_code 6 ds "" = Some ("AB23CD", []) →
        ds = [0; 1; 24; 25; 2; 3].
Proof.
  assert (Hrnd : Forall (λ r, r < String.length chars) [0; 1; 24; 25; 2; 3]).
  { repeat (constructor; [vm_compute; lia|]). constructor. }
  split; [exact Hrnd|]. split; [reflexivity|].
  intros ds Hds Hlen Hd.
  exact (draw_code_injective ds [0; 1; 24; 25; 2; 3] "AB23CD" [] []
           Hds Hrnd Hlen eq_refl Hd eq_refl).
Defined.

End RegistryExtra.

(** ** Further properties of the event handlers *)
Module CoordinatorExtra.
Import Registry Trace Coordinator Props MoreProps RegistryFacts.

Section Server.

Variable normalize : option string → string.

(** A handler changes the registry only through one call of its API. *)
Lemma handle_step ev st st' out :
  handle normalize ev st = Some (st', out) →
  registry st' = registry st ∨
  ∃ o, step o (registry st) = Some (registry st').
Proof.
  intros Hh. destruct ev as [id rnd now|id p|id p l now|id p|id];
    cbn [handle] in Hh.
  - unfold on_createSession in Hh.
    destruct (createSession id rnd now (registry st)) as [[c r']|] eqn:Hc;
      [|done].
    injection Hh as <- <-. right. exists (OpCreate id rnd now).
    cbn. by rewrite Hc.
  - injection Hh as Hh. unfold on_joinSession in Hh.
    destruct (negb (sessionExists (normalize p) (registry st)));
      [injection Hh as <- <-; by left|].
    destruct (addStudent (normalize p) id (registry st)) as [b r'] eqn:Ha.
    right. exists (OpAdd (normalize p) id). cbn. rewrite Ha.
    by destruct b; injection Hh as <- <-.
  - injection Hh as Hh. unfold on_feedback in Hh.
    destruct (throttled id now st); [injection Hh as <- <-; by left|].
    destruct (updateFeedback (normalize p) id l (registry st))
      as [b r'] eqn:Hu.
    right. exists (OpUpdate (normalize p) id l). cbn. rewrite Hu.
    by destruct b; injection Hh as <- <-.
  - unfold on_endSession in Hh. injection Hh as <- <-. right. by exists (OpEnd (normalize p)).
  - injection Hh as Hh. unfold on_disconnect in Hh.
    destruct (removeSocket id (registry st)) as [i r'] eqn:Hr.
    injection Hh as <- <-. right. exists (OpRemove id). cbn.
    by rewrite Hr.
Qed.

Lemma handle_reachable ev st st' out :
  reachable (registry st) → handle normalize ev st = Some (st', out) →
  reachable (registry st').
Proof.
  intros Hreach Hh. destruct (handle_step _ _ _ _ Hh) as [->|[o Ho]];
    [done|].
  by eapply reach_step.
Qed.

Lemma run_events_reachable evs : ∀ st st',
  reachable (registry st) → run_events normalize evs st = Some st' →
  reachable (registry st').
Proof.
  induction evs as [|ev evs IH]; intros st st' Hreach Hrun;
    cbn [run_events] in Hrun.
  - by injection Hrun as <-.
  - destruct (handle normalize ev st) as [[st1 out]|] eqn:Hh; [|done].
    eapply IH; [|done]. by eapply handle_reachable.
Qed.

Lemma getAggregate_balanced st c agg :
  levels_valid st → getAggregate c st = Some agg → balanced agg.
Proof.
  intros Hvalid Hagg. unfold getAggregate in Hagg.
  destruct (sessions st !! c) as [s|] eqn:Hs; [|done].
  injection Hagg as <-.
  exists (tally "gotit" (values (clients s))),
         (tally "neutral" (values (clients s))),
         (tally "confused" (values (clients s))),
         (tally "lost" (values (clients s))),
         (size (clients s)).
  rewrite lookup_insert_eq. rewrite !lookup_insert_ne by done.
  rewrite !count_levels_lookup
    by (unfold FEEDBACK_LEVELS; repeat constructor).
  split_and!; try done.
  rewrite tally_sum; [apply length_values|].
  apply Forall_forall. intros l [k Hk]%elem_of_values.
  by eapply Hvalid.
Qed.

(** An aggregate that a handler sends is the aggregate of the room it is
    sent to, taken after the handler's change, and it is not null. *)
Lemma handle_aggregate ev st st' out room agg :
  handle normalize ev st = Some (st', out) →
  EmitRoom room (AggregateUpdate agg) ∈ out →
  agg = getAggregate room (registry st') ∧ is_Some agg.
Proof.
  intros Hh Hin. destruct ev as [id rnd now|id p|id p l now|id p|id];
    cbn [handle] in Hh.
  - unfold on_createSession in Hh.
    destruct (createSession id rnd now (registry st)) as [[c r']|];
      [|done].
    injection Hh as <- <-.
    repeat (apply elem_of_cons in Hin as [Hin|Hin]; [discriminate|]).
    by apply elem_of_nil in Hin.
  - injection Hh as Hh. unfold on_joinSession in Hh.
    destruct (negb (sessionExists (normalize p) (registry st))).
    { injection Hh as <- <-.
      repeat (apply elem_of_cons in Hin as [Hin|Hin]; [discriminate|]).
      by apply elem_of_nil in Hin. }
    unfold addStudent in Hh.
    destruct (sessions (registry st) !! normalize p) as [s|] eqn:Hs;
      cbn [negb] in Hh; injection Hh as <- <-.
    + apply elem_of_cons in Hin as [Hin|Hin]; [discriminate|].
      apply elem_of_cons in Hin as [Hin|Hin]; [discriminate|].
      apply elem_of_cons in Hin as [Hin|Hin];
        [|by apply elem_of_nil in Hin].
      injection Hin as -> ->. cbn [registry]. split; [done|].
      unfold getAggregate. cbn [sessions]. rewrite lookup_insert_eq.
      by eexists.
    + repeat (apply elem_of_cons in Hin as [Hin|Hin]; [discriminate|]).
      by apply elem_of_nil in Hin.
  - injection Hh as Hh. unfold on_feedback in Hh.
    destruct (throttled id now st).
    { injection Hh as <- <-. by apply elem_of_nil in Hin. }
    unfold updateFeedback in Hh.
    destruct (bool_decide (l ∈ FEEDBACK_LEVELS)); cbn [negb] in Hh;
      [|injection Hh as <- <-; by apply elem_of_nil in Hin].
    destruct (sessions (registry st) !! normalize p) as [s|] eqn:Hs;
      cbn [negb] in Hh;
      [|injection Hh as <- <-; by apply elem_of_nil in Hin].
    destruct (bool_decide (is_Some (clients s !! id))); cbn [negb] in Hh;
      injection Hh as <- <-; [|by apply elem_of_nil in Hin].
    apply elem_of_cons in Hin as [Hin|Hin];
      [|by apply elem_of_nil in Hin].
    injection Hin as -> ->. cbn [registry]. split; [done|].
    unfold getAggregate. cbn [sessions]. rewrite lookup_insert_eq.
    by eexists.
  - unfold on_endSession in Hh. injection Hh as <- <-.
    repeat (apply elem_of_cons in Hin as [Hin|Hin]; [discriminate|]).
    by apply elem_of_nil in Hin.
  - injection Hh as Hh. unfold on_disconnect in Hh.
    destruct (removeSocket id (registry st)) as [i r'] eqn:Hr.
    injection Hh as <- <-. cbn [registry].
    destruct i as [[c []]|]; try by apply elem_of_nil in Hin.
    destruct (getAggregate c r') as [a|] eqn:Ha;
      [|by apply elem_of_nil in Hin].
    apply elem_of_cons in Hin as [Hin|Hin];
      [|by apply elem_of_nil in Hin].
    injection Hin as -> ->. by rewrite Ha.
Qed.

(** X12. Whatever events arrive and in whatever order, each with a
    payload object whose [code] is a string or is missing and, for
    feedback, whose [level] is a string, once their handlers have returned
    the server's registry keeps the invariants of the registry API: every
    reverse-index entry refers to its session, and every stored level is
    one of the four.  (A handler given no payload object, or a [code] that
    is neither a string nor falsy, throws; such deliveries are not events
    of [event].) *)
Theorem server_registry_invariants (evs : list event) (st : cstate) :
  run_events normalize evs init = Some st →
  index_sound (registry st) ∧ levels_valid (registry st).
Proof.
  intros Hrun.
  assert (Hreach : reachable (registry st)).
  { eapply run_events_reachable; [|done]. constructor. }
  split; [by apply reachable_index_sound|by apply reachable_levels_valid].
Qed.

(** X13. The server never sends a null aggregate, and it sends aggregates
    to rooms only.  In every aggregate it sends the four counters are
    numbers that add up to [total]. *)
Theorem sent_aggregates_balanced (evs : list event) (a : action) :
  a ∈ run_actions normalize evs init →
  match a with
  | EmitRoom room (AggregateUpdate agg) =>
      ∃ counts, agg = Some counts ∧ balanced counts
  | Emit id (AggregateUpdate agg) => False
  | _ => True
  end.
Proof.
  assert (Hgen : ∀ evs st, reachable (registry st) →
            a ∈ run_actions normalize evs st →
            match a with
            | EmitRoom room (AggregateUpdate agg) =>
                ∃ counts, agg = Some counts ∧ balanced counts
            | Emit id (AggregateUpdate agg) => False
            | _ => True
            end).
  { clear evs. induction evs as [|ev evs IH]; intros st Hreach Hin;
      cbn [run_actions] in Hin; [by apply elem_of_nil in Hin|].
    destruct (handle normalize ev st) as [[st1 out]|] eqn:Hh;
      [|by apply elem_of_nil in Hin].
    pose proof (handle_reachable _ _ _ _ Hreach Hh) as Hreach1.
    apply elem_of_app in Hin as [Hin|Hin]; [|by eapply IH].
    destruct a as [| id m | room m]; [done| |].
    - destruct m as [| | |agg|]; try done.
      clear -Hh Hin. exfalso.
      destruct ev as [id0 rnd now|id0 p|id0 p l now|id0 p|id0];
        cbn [handle] in Hh.
      + unfold on_createSession in Hh.
        destruct (createSession id0 rnd now (registry st)) as [[c r']|];
          [|done].
        injection Hh as <- <-.
        repeat (apply elem_of_cons in Hin as [Hin|Hin]; [discriminate|]).
        by apply elem_of_nil in Hin.
      + injection Hh as Hh. unfold on_joinSession in Hh.
        destruct (negb (sessionExists (normalize p) (registry st)));
          [|destruct (addStudent (normalize p) id0 (registry st))
              as [[] r']; cbn [negb] in Hh];
          injection Hh as <- <-;
          repeat (apply elem_of_cons in Hin as [Hin|Hin]; [discriminate|]);
          by apply elem_of_nil in Hin.
      + injection Hh as Hh. unfold on_feedback in Hh.
        destruct (throttled id0 now st);
          [|destruct (updateFeedback (normalize p) id0 l (registry st))
              as [[] r']; cbn [negb] in Hh];
          injection Hh as <- <-;
          repeat (apply elem_of_cons in Hin as [Hin|Hin]; [discriminate|]);
          by apply elem_of_nil in Hin.
      + unfold on_endSession in Hh. injection Hh as <- <-.
        repeat (apply elem_of_cons in Hin as [Hin|Hin]; [discriminate|]).
        by apply elem_of_nil in Hin.
      + injection Hh as Hh. unfold on_disconnect in Hh.
        destruct (removeSocket id0 (registry st)) as [i r'].
        injection Hh as <- <-.
        destruct i as [[c []]|]; try by apply elem_of_nil in Hin.
        destruct (getAggregate c r'); [|by apply elem_of_nil in Hin].
        repeat (apply elem_of_cons in Hin as [Hin|Hin]; [discriminate|]).
        by apply elem_of_nil in Hin.
    - destruct m as [| | |agg|]; try done.
      destruct (handle_aggregate _ _ _ _ _ _ Hh Hin) as [Hagg [counts Hc]].
      exists counts. split; [done|].
      eapply getAggregate_balanced;
        [by apply reachable_levels_valid|].
      by rewrite <- Hagg. }
  apply Hgen. constructor.
Qed.

Lemma updateFeedback_false c id l (r : state) :
  (updateFeedback c id l r).1 = false → (updateFeedback c id l r).2 = r.
Proof.
  unfold updateFeedback. case_bool_decide; [|done].
  destruct (sessions r !! c) as [s|]; [|done].
  by case_bool_decide.
Qed.

(** X14. A feedback event that passes the throttle and is then turned down
    by [updateFeedback] (unknown level, unknown code, or a socket that is
    not a participant) sends nothing and leaves the registry as it is, but
    its time is recorded: every feedback event of the same socket that
    arrives less than 500 after it is dropped, valid or not. *)
Theorem rejected_feedback_uses_window (id : string) (p : option string)
    (l : string) (now : Z) (st : cstate) :
  throttled id now st = false →
  (updateFeedback (normalize p) id l (registry st)).1 = false →
  let st1 := (on_feedback normalize id p l now st).1 in
  (on_feedback normalize id p l now st).2 = [] ∧
  registry st1 = registry st ∧
  ∀ p' l' now', (now' - now < THROTTLE_MS)%Z →
    on_feedback normalize id p' l' now' st1 = (st1, []).
Proof.
  intros Hthr Hrej st1.
  assert (Hrun : on_feedback normalize id p l now st
                 = (CState (registry st)
                      (<[id := now]> (lastFeedbackTime st)), [])).
  { unfold on_feedback. rewrite Hthr.
    pose proof (updateFeedback_false _ _ _ _ Hrej) as Hsame.
    destruct (updateFeedback (normalize p) id l (registry st)) as [b r'].
    cbn in Hrej, Hsame. by subst. }
  unfold st1. rewrite Hrun. cbn [fst snd registry]. split_and!; try done.
  intros p' l' now' Hlt. unfold on_feedback, throttled, last_feedback.
  cbn [lastFeedbackTime]. rewrite lookup_insert_eq. cbn.
  destruct (Z.ltb_spec (now' - now) THROTTLE_MS); [done|lia].
Qed.

(** X23. A feedback event that passes the throttle, from a participant
    of the session its code names, with one of the four levels, is always
    broadcast: the participant's level becomes the new one, the time is
    recorded, and the room is sent the aggregate taken after the change. *)
Theorem feedback_broadcast (id : string) (p : option string) (l l0 : string)
    (now : Z) (st : cstate) (s : session) :
  throttled id now st = false →
  sessions (registry st) !! normalize p = Some s →
  clients s !! id = Some l0 → l ∈ FEEDBACK_LEVELS →
  let st1 := (on_feedback normalize id p l now st).1 in
  lastFeedbackTime st1 !! id = Some now ∧
  (∃ s1, sessions (registry st1) !! normalize p = Some s1 ∧
         clients s1 !! id = Some l) ∧
  ∃ agg,
    (on_feedback normalize id p l now st).2
      = [EmitRoom (normalize p) (AggregateUpdate (Some agg))] ∧
    getAggregate (normalize p) (registry st1) = Some agg.
Proof.
  intros Hthr Hs Hid Hl st1.
  unfold st1, on_feedback. rewrite Hthr. unfold updateFeedback.
  rewrite bool_decide_eq_true_2 by done. rewrite Hs.
  rewrite bool_decide_eq_true_2 by done.
  cbn [negb fst snd lastFeedbackTime registry sessions]. split_and!.
  - apply lookup_insert_eq.
  - eexists. rewrite lookup_insert_eq. split; [done|]. cbn.
    apply lookup_insert_eq.
  - unfold getAggregate. cbn [sessions]. rewrite lookup_insert_eq.
    by eexists.
Qed.

(** X15. When a socket disconnects, its throttle timestamp is forgotten.
    In a registry the server can be in: a socket without reverse-index
    entry changes nothing in the registry and nothing is sent; for a
    teacher nothing is sent and all sessions stay; for a student the
    aggregate of its session, taken after the removal, is sent to the room
    (the session is always still there). *)
Theorem on_disconnect_spec (id : string) (st : cstate) :
  reachable (registry st) →
  lastFeedbackTime (on_disconnect id st).1 !! id = None ∧
  match socketToSession (registry st) !! id with
  | None =>
      (on_disconnect id st).2 = [] ∧
      registry (on_disconnect id st).1 = registry st
  | Some i =>
      match role_of i with
      | teacher =>
          (on_disconnect id st).2 = [] ∧
          sessions (registry (on_disconnect id st).1)
            = sessions (registry st)
      | student =>
          ∃ agg,
            (on_disconnect id st).2
              = [EmitRoom (code i) (AggregateUpdate (Some agg))] ∧
            getAggregate (code i) (registry (on_disconnect id st).1)
              = Some agg
      end
  end.
Proof.
  intros Hreach. apply reachable_index_sound in Hreach.
  unfold on_disconnect, removeSocket.
  destruct (socketToSession (registry st) !! id) as [i|] eqn:Hi.
  - destruct (Hreach id i Hi) as (s & Hs & Hrole). rewrite Hs.
    destruct i as [c r]. cbn [code role_of] in *.
    destruct r; cbn [fst snd lastFeedbackTime registry sessions].
    + split; [apply lookup_delete_eq|done].
    + split; [apply lookup_delete_eq|].
      unfold getAggregate. cbn [sessions]. rewrite lookup_insert_eq.
      by eexists.
  - cbn [fst snd lastFeedbackTime registry].
    split; [apply lookup_delete_eq|done].
Qed.

(** X16. The end-session handler sends [sessionEnded] to the room named by
    the normalized code, whoever asks and whether or not such a session
    exists.  Afterwards there is no session with that code: a join with
    the same payload is answered with "Invalid session code." and changes
    nothing, and a feedback with the same payload sends nothing and leaves
    the registry as it is. *)
Theorem on_endSession_closes (id : string) (p : option string)
    (st : cstate) :
  let c := normalize p in
  let st' := (on_endSession normalize id p st).1 in
  (on_endSession normalize id p st).2 = [EmitRoom c SessionEnded] ∧
  sessionExists c (registry st') = false ∧
  (∀ id', on_joinSession normalize id' p st'
          = (st', [Emit id' (JoinError "Invalid session code.")])) ∧
  (∀ id' l now,
     (on_feedback normalize id' p l now st').2 = [] ∧
     registry (on_feedback normalize id' p l now st').1 = registry st').
Proof.
  intros c st'.
  assert (Hgone : sessions (registry st') !! c = None).
  { unfold st', on_endSession, endSession. fold c. cbn [fst registry].
    destruct (sessions (registry st) !! c) eqn:Hc; cbn [snd sessions].
    - apply lookup_delete_eq.
    - done. }
  assert (Hex : sessionExists c (registry st') = false).
  { unfold sessionExists. rewrite bool_decide_eq_false_2; [done|].
    rewrite Hgone. by intros [? ?]. }
  split_and!; try done.
  - intros id'. unfold on_joinSession. fold c. by rewrite Hex.
  - intros id' l now. unfold on_feedback. fold c.
    destruct (throttled id' now st'); [done|].
    unfold updateFeedback. rewrite Hgone.
    by destruct (bool_decide (l ∈ FEEDBACK_LEVELS)).
Qed.

End Server.

Lemma server_registry_invariants_witness :
  ∃ st, run_events ascii_normalize ex_events init = Some st ∧
        index_sound (registry st) ∧ levels_valid (registry st).
Proof.
  eexists. split; [reflexivity|].
  exact (server_registry_invariants ascii_normalize ex_events _ eq_refl).
Defined.

Lemma sent_aggregates_balanced_witness :
  ∃ agg,
    EmitRoom "AB23CD" (AggregateUpdate agg)
      ∈ run_actions ascii_normalize ex_events init ∧
    ∃ counts, agg = Some counts ∧ balanced counts.
Proof.
  exists (getAggregate "AB23CD" ex_state).
  assert (Hin : EmitRoom "AB23CD"
                  (AggregateUpdate (getAggregate "AB23CD" ex_state))
                ∈ run_actions ascii_normalize ex_events init).
  { vm_compute. repeat constructor. }
  split; [exact Hin|].
  exact (sent_aggregates_balanced ascii_normalize ex_events _ Hin).
Defined.

Lemma rejected_feedback_uses_window_witness :
  throttled "X" 1000 init = false ∧
  (updateFeedback (ascii_normalize (Some "nope")) "X" "lost"
     (registry init)).1 = false ∧
  on_feedback ascii_normalize "X" (Some "AB23CD") "lost" 1200
    (on_feedback ascii_normalize "X" (Some "nope") "lost" 1000 init).1
  = ((on_feedback ascii_normalize "X" (Some "nope") "lost" 1000 init).1,
     []).
Proof.
  split; [reflexivity|]. split; [reflexivity|].
  destruct (rejected_feedback_uses_window ascii_normalize "X" (Some "nope")
              "lost" 1000 init eq_refl eq_refl) as (_ & _ & Hdrop).
  apply Hdrop. reflexivity.
Defined.

Lemma on_disconnect_spec_witness :
  reachable (registry (CState ex_state ∅)) ∧
  ∃ agg,
    (on_disconnect "X" (CState ex_state ∅)).2
      = [EmitRoom "AB23CD" (AggregateUpdate (Some agg))] ∧
    agg !! "total" = Some (Num 0).
Proof.
  split; [exact RegistrySpec.ex_reachable|].
  destruct (on_disconnect_spec "X" (CState ex_state ∅)
              RegistrySpec.ex_reachable) as [_ H].
  change (socketToSession (registry (CState ex_state ∅)) !! "X")
    with (Some (Info "AB23CD" student)) in H.
  cbv iota in H. cbn [role_of code] in H.
  destruct H as (agg & Hout & Hagg).
  exists agg. split; [exact Hout|].
  vm_compute in Hagg. injection Hagg as <-. reflexivity.
Defined.

Lemma feedback_broadcast_witness :
  throttled "X" 2000 (CState ex_state ∅) = false ∧
  ∃ agg,
    (on_feedback ascii_normalize "X" (Some " ab23cd") "lost" 2000
       (CState ex_state ∅)).2
      = [EmitRoom "AB23CD" (AggregateUpdate (Some agg))] ∧
    agg !! "lost" = Some (Num 1).
Proof.
  assert (Hthr : throttled "X" 2000 (CState ex_state ∅) = false)
    by reflexivity.
  split; [exact Hthr|].
  assert (Hl : "lost" ∈ FEEDBACK_LEVELS)
    by (unfold FEEDBACK_LEVELS; repeat constructor).
  assert (Hs : sessions (registry (CState ex_state ∅))
                 !! ascii_normalize (Some " ab23cd")
               = Some (Session "T" (<["X" := "neutral"]> ∅) 1000))
    by reflexivity.
  destruct (feedback_broadcast ascii_normalize "X" (Some " ab23cd") "lost"
              "neutral" 2000 (CState ex_state ∅) _ Hthr Hs eq_refl Hl)
    as (_ & _ & agg & Hout & Hagg).
  exists agg. split; [exact Hout|].
  vm_compute in Hagg. injection Hagg as <-. reflexivity.
Defined.

End CoordinatorExtra.

(** ** Facts about upper-casing and trimming *)
Module TextFacts.
Import Registry Coordinator Client Props MoreProps.

Local Open Scope list_scope.

Lemma upper_ascii_idem a : upper_ascii (upper_ascii a) = upper_ascii a.
Proof. by destruct a as [[] [] [] [] [] [] [] []]. Qed.

Lemma is_space_upper a : is_space (upper_ascii a) = is_space a.
Proof. by destruct a as [[] [] [] [] [] [] [] []]. Qed.

Lemma trim_start_upper l :
  trim_start (upper_ascii <$> l) = upper_ascii <$> trim_start l.
Proof.
  induction l as [|a l IH]; [done|]. cbn [fmap list_fmap trim_start].
  rewrite is_space_upper. by destruct (is_space a).
Qed.

Lemma trim_start_suffix l : ∃ pre, l = pre ++ trim_start l.
Proof.
  induction l as [|a l [pre IH]]; [by exists []|]. cbn [trim_start].
  destruct (is_space a).
  - exists (a :: pre). cbn. by f_equal.
  - by exists [].
Qed.

Lemma trim_start_no_lead l : no_lead (trim_start l).
Proof.
  induction l as [|a l IH]; [done|]. cbn [trim_start].
  by destruct (is_space a) eqn:Ha.
Qed.

Lemma trim_start_id l : no_lead l → trim_start l = l.
Proof. destruct l as [|a l]; [done|]. cbn. by intros ->. Qed.

Lemma no_lead_reverse_trim y :
  no_lead y → no_lead (reverse (trim_start (reverse y))).
Proof.
  intros Hy. destruct (trim_start_suffix (reverse y)) as [pre Hpre].
  destruct (trim_start (reverse y)) as [|b z] eqn:Hz; [done|].
  apply (f_equal reverse) in Hpre.
  rewrite reverse_involutive, reverse_app in Hpre.
  destruct (reverse (b :: z)) as [|a w] eqn:Hw.
  - apply (f_equal length) in Hw. rewrite length_reverse in Hw. done.
  - rewrite Hpre in Hy. exact Hy.
Qed.

Lemma trim_list_idem l :
  let t := reverse (trim_start (reverse (trim_start l))) in
  reverse (trim_start (reverse (trim_start t))) = t.
Proof.
  intros t.
  assert (Ht : no_lead t)
    by apply no_lead_reverse_trim, trim_start_no_lead.
  rewrite (trim_start_id t Ht). unfold t. rewrite reverse_involutive.
  by rewrite (trim_start_id _ (trim_start_no_lead _)).
Qed.

Lemma trim_list_upper l :
  reverse (trim_start (reverse (trim_start (upper_ascii <$> l))))
  = upper_ascii <$> reverse (trim_start (reverse (trim_start l))).
Proof.
  rewrite trim_start_upper, <- fmap_reverse, trim_start_upper.
  by rewrite fmap_reverse.
Qed.

Lemma ascii_normalize_trim_upper s :
  ascii_normalize (Some s) = trim (toUpperCase s).
Proof.
  unfold ascii_normalize, trim, toUpperCase. cbn [default].
  by rewrite String.list_ascii_of_string_of_list_ascii.
Qed.

Lemma normalize_list_idem l :
  let n := reverse (trim_start (reverse (trim_start (upper_ascii <$> l)))) in
  reverse (trim_start (reverse (trim_start (upper_ascii <$> n)))) = n.
Proof.
  intros n.
  assert (Hn : n = upper_ascii
                     <$> reverse (trim_start (reverse (trim_start l))))
    by apply trim_list_upper.
  rewrite Hn, <- list_fmap_compose.
  rewrite (list_fmap_ext (upper_ascii ∘ upper_ascii) upper_ascii)
    by (intros; apply upper_ascii_idem).
  rewrite trim_list_upper. f_equal. apply trim_list_idem.
Qed.

Lemma alphabet_plain :
  Forall (λ a, upper_ascii a = a ∧ is_space a = false) alphabet.
Proof. apply (bool_decide_unpack _). by vm_compute. Qed.

Lemma fmap_upper_plain l :
  Forall (λ a, a ∈ alphabet) l → upper_ascii <$> l = l.
Proof.
  pose proof alphabet_plain as Hp. rewrite Forall_forall in Hp.
  induction 1 as [|a l Ha _ IH]; [done|]. cbn. rewrite IH.
  by rewrite (proj1 (Hp a Ha)).
Qed.

Lemma trim_start_plain l :
  Forall (λ a, a ∈ alphabet) l → trim_start l = l.
Proof.
  pose proof alphabet_plain as Hp. rewrite Forall_forall in Hp.
  intros Hl. apply trim_start_id. destruct Hl as [|a l Ha _]; [done|].
  exact (proj2 (Hp a Ha)).
Qed.

Lemma ascii_normalize_code c :
  Forall (λ a, a ∈ alphabet) (String.list_ascii_of_string c) →
  ascii_normalize (Some c) = c.
Proof.
  intros Hc. rewrite ascii_normalize_trim_upper. unfold trim, toUpperCase.
  rewrite String.list_ascii_of_string_of_list_ascii.
  rewrite (fmap_upper_plain _ Hc), (trim_start_plain _ Hc).
  rewrite trim_start_plain by by apply Forall_reverse.
  by rewrite reverse_involutive, String.string_of_list_ascii_of_string.
Qed.

Lemma upper_ascii_below a :
  (Ascii.nat_of_ascii a < 128)%nat →
  (Ascii.nat_of_ascii (upper_ascii a) < 128)%nat.
Proof.
  destruct a as [[] [] [] [] [] [] [] []]; intros H;
    vm_compute in H |- *; lia.
Qed.

Lemma trim_start_Forall (P : Ascii.ascii → Prop) l :
  Forall P l → Forall P (trim_start l).
Proof.
  intros Hl. destruct (trim_start_suffix l) as [pre Hpre].
  rewrite Hpre in Hl. by apply Forall_app in Hl as [_ ?].
Qed.

Lemma trim_list_Forall (P : Ascii.ascii → Prop) l :
  Forall P l → Forall P (reverse (trim_start (reverse (trim_start l)))).
Proof.
  intros Hl. apply Forall_reverse, trim_start_Forall, Forall_reverse.
  by apply trim_start_Forall.
Qed.

Lemma trim_start_nil l :
  trim_start l = [] → Forall (λ a, is_space a = true) l.
Proof.
  induction l as [|a l IH]; [constructor|]. cbn [trim_start].
  destruct (is_space a) eqn:Ha; [|done].
  intros Hl. constructor; [done|by apply IH].
Qed.

Lemma trim_start_blank l :
  Forall (λ a, is_space a = true) l → trim_start l = [].
Proof.
  induction 1 as [|x l Hx _ IH]; [done|]. cbn [trim_start]. by rewrite Hx.
Qed.

Lemma trim_list_nil l :
  reverse (trim_start (reverse (trim_start l))) = [] →
  Forall (λ a, is_space a = true) l.
Proof.
  intros Hl. apply (f_equal reverse) in Hl.
  rewrite reverse_involutive, reverse_nil in Hl.
  apply trim_start_nil, Forall_reverse in Hl.
  rewrite reverse_involutive in Hl.
  apply trim_start_nil.
  pose proof (trim_start_no_lead l) as Hno.
  destruct (trim_start l) as [|b z]; [done|].
  apply Forall_cons in Hl as [Hb _]. cbn in Hno. congruence.
Qed.

Lemma ascii_normalize_idem p :
  ascii_normalize (Some (ascii_normalize p)) = ascii_normalize p.
Proof.
  rewrite ascii_normalize_trim_upper. unfold ascii_normalize, trim, toUpperCase.
  rewrite !String.list_ascii_of_string_of_list_ascii.
  f_equal. apply normalize_list_idem.
Qed.

End TextFacts.

(** ** Codes from the browser to the registry *)
Module NormalizeExtra.
Import Registry Trace Coordinator Client Props MoreProps RegistryFacts
  TextFacts.

(** X17. Normalizing a code twice is the same as normalizing it once, and
    a normalized code neither begins nor ends with white space and has no
    small letter. *)
Theorem ascii_normalize_idempotent (p : option string) :
  ascii_normalize (Some (ascii_normalize p)) = ascii_normalize p ∧
  let l := String.list_ascii_of_string (ascii_normalize p) in
  no_lead l ∧ no_lead (reverse l) ∧ Forall (λ a, upper_ascii a = a) l.
Proof.
  split.
  - apply ascii_normalize_idem.
  - cbv zeta. unfold ascii_normalize.
    rewrite String.list_ascii_of_string_of_list_ascii.
    set (l0 := String.list_ascii_of_string (default "" p)).
    set (n := reverse (trim_start (reverse (trim_start
                (upper_ascii <$> l0))))).
    split_and!.
    + apply no_lead_reverse_trim, trim_start_no_lead.
    + unfold n. rewrite reverse_involutive. apply trim_start_no_lead.
    + unfold n. rewrite trim_list_upper. apply Forall_fmap, Forall_true.
      intros a. apply upper_ascii_idem.
Qed.

(** X18. A session can be joined with the code it was created with: the
    create handler sends [sessionCreated] with a code that normalization
    leaves unchanged, and a join with that code, by any socket, takes the
    success path and sends the room an aggregate. *)
Theorem created_code_joins (t : string) (rnd : list nat) (now : Z)
    (st st1 : cstate) (out : list action) :
  Forall (λ r, r < String.length chars) rnd →
  on_createSession t rnd now st = Some (st1, out) →
  ∃ c, out = [Join t c; Emit t (SessionCreated c)] ∧
    ascii_normalize (Some c) = c ∧
    ∀ id, ∃ agg,
      on_joinSession ascii_normalize id (Some c) st1
        = (CState (addStudent c id (registry st1)).2 (lastFeedbackTime st1),
           [Join id c; Emit id (JoinedSession c);
            EmitRoom c (AggregateUpdate (Some agg))]).
Proof.
  intros Hrnd Hc. unfold on_createSession, createSession in Hc.
  destruct (generateCode rnd (sessions (registry st))) as [c|] eqn:Hg;
    [|done].
  injection Hc as <- <-.
  destruct (generateCode_loop_spec _ _ _ _ Hrnd Hg) as [_ [_ Hall]].
  exists c. split; [done|].
  pose proof (ascii_normalize_code c Hall) as Hnorm. split; [done|].
  intros id. unfold on_joinSession. rewrite Hnorm.
  unfold sessionExists, addStudent. cbn [registry sessions socketToSession].
  rewrite lookup_insert_eq.
  rewrite bool_decide_eq_true_2 by done. cbn [negb].
  unfold getAggregate. cbn [sessions]. rewrite lookup_insert_eq.
  by eexists.
Qed.

Lemma created_code_joins_witness :
  Forall (λ r, r < String.length chars) [0; 1; 24; 25; 2; 3] ∧
  ∃ st1 agg,
    on_createSession "T" [0; 1; 24; 25; 2; 3] 1000 init
      = Some (st1, [Join "T" "AB23CD"; Emit "T" (SessionCreated "AB23CD")]) ∧
    (on_joinSession ascii_normalize "X" (Some "AB23CD") st1).2
      = [Join "X" "AB23CD"; Emit "X" (JoinedSession "AB23CD");
         EmitRoom "AB23CD" (AggregateUpdate (Some agg))].
Proof.
  assert (Hrnd : Forall (λ r, r < String.length chars) [0; 1; 24; 25; 2; 3]).
  { repeat (constructor; [vm_compute; lia|]). constructor. }
  split; [exact Hrnd|].
  pose (st1 := CState (State (<["AB23CD" := Session "T" ∅ 1000]> ∅)
                             (<["T" := Info "AB23CD" teacher]> ∅)) ∅).
  destruct (created_code_joins "T" _ 1000 init st1
              [Join "T" "AB23CD"; Emit "T" (SessionCreated "AB23CD")]
              Hrnd eq_refl)
    as (c & Hout & _ & Hjoin).
  injection Hout as <-.
  destruct (Hjoin "X") as [agg Hagg].
  exists st1, agg. split; [reflexivity|].
  by rewrite Hagg.
Defined.

End NormalizeExtra.

(** ** Properties of the browser side *)
Module ClientExtra.
Import Registry Trace Coordinator Client Props MoreProps RegistryFacts
  TextFacts.

(** X19. On ASCII text in its field, the join form sends nothing for a
    blank code (empty, or ASCII white space only) and leaves the state of
    [App] as it is.  For any other ASCII text it sends one [joinSession]
    whose code is ASCII, is not empty and is already in the form the
    server normalizes to, so the server looks up exactly the code it was
    sent. *)
Theorem handleSubmit_spec (c : string) (a : app) :
  ascii_text c →
  match (handleSubmit c a).2 with
  | [] => blank c ∧ trim c = "" ∧ (handleSubmit c a).1 = a
  | [ReqJoinSession c'] =>
      ¬ blank c ∧ ascii_text c' ∧ c' ≠ "" ∧
      c' = ascii_normalize (Some c) ∧ ascii_normalize (Some c') = c'
  | _ => False
  end.
Proof.
  intros Hascii. unfold handleSubmit.
  destruct (String.length (trim c) =? 0)%nat eqn:Hlen; cbn [fst snd].
  - apply Nat.eqb_eq in Hlen.
    assert (Hempty : trim c = "") by by destruct (trim c).
    split_and!; [|done|done].
    unfold blank. apply trim_list_nil.
    unfold trim in Hempty.
    apply (f_equal String.list_ascii_of_string) in Hempty.
    by rewrite String.list_ascii_of_string_of_list_ascii in Hempty.
  - apply Nat.eqb_neq in Hlen. cbn [handleJoinSession snd].
    rewrite <- ascii_normalize_trim_upper. split_and!; [| | |done|].
    + intros Hblank. apply Hlen. unfold blank in Hblank. unfold trim.
      by rewrite (trim_start_blank _ Hblank).
    + rewrite ascii_normalize_trim_upper. unfold ascii_text, trim, toUpperCase.
      rewrite !String.list_ascii_of_string_of_list_ascii.
      apply trim_list_Forall, Forall_fmap.
      eapply Forall_impl; [exact Hascii|].
      intros x Hx. by apply upper_ascii_below.
    + intros Hempty. apply Hlen.
      rewrite ascii_normalize_trim_upper in Hempty.
      unfold trim, toUpperCase in *.
      rewrite String.list_ascii_of_string_of_list_ascii in Hempty.
      rewrite trim_list_upper in Hempty.
      destruct (reverse (trim_start (reverse (trim_start
                  (String.list_ascii_of_string c))))); [done|].
      discriminate.
    + apply ascii_normalize_idem.
Qed.

Lemma handleSubmit_spec_witness :
  ascii_text " ab23cd" ∧
  (handleSubmit " ab23cd" app_init).2 = [ReqJoinSession "AB23CD"] ∧
  ¬ blank " ab23cd" ∧ ascii_text "AB23CD" ∧ "AB23CD" ≠ "" ∧
  "AB23CD" = ascii_normalize (Some " ab23cd") ∧
  ascii_normalize (Some "AB23CD") = "AB23CD".
Proof.
  assert (Hascii : ascii_text " ab23cd").
  { unfold ascii_text. repeat (constructor; [vm_compute; lia|]).
    constructor. }
  split; [exact Hascii|]. split; [reflexivity|].
  exact (handleSubmit_spec " ab23cd" app_init Hascii).
Defined.

Lemma app_inv_mono seen e a : app_inv seen a → app_inv (seen ++ [e])%list a.
Proof.
  unfold app_inv. destruct (view a); [done| |];
    intros H; apply elem_of_app; by left.
Qed.

Lemma app_step_inv seen e a :
  app_inv seen a →
  app_inv (seen ++ [e])%list (app_step e a).1 ∧
  ∀ c, ReqEndSession c ∈ (app_step e a).2 → GotSessionCreated c ∈ seen.
Proof.
  intros Hinv.
  assert (Hlast : e ∈ (seen ++ [e])%list).
  { apply elem_of_app. right. apply elem_of_cons. by left. }
  assert (Hnone : ∀ c, ReqEndSession c ∈ (@nil request) →
                       GotSessionCreated c ∈ seen).
  { intros c Hc. by apply elem_of_nil in Hc. }
  pose proof (app_inv_mono seen e a Hinv) as Hmono.
  unfold app_step.
  destruct e as [c|c|m|  | |c| | ]; cbn [fst snd]; try (split; done).
  - destruct (view a) eqn:Hv; cbn [fst snd]; try (split; done).
    split; [|intros c Hc;
             repeat (apply elem_of_cons in Hc as [Hc|Hc]; [discriminate|]);
             by apply elem_of_nil in Hc].
    unfold app_inv in *. cbn. by rewrite Hv in *.
  - destruct (view a) eqn:Hv; cbn [fst snd]; try (split; done).
    unfold handleSubmit.
    destruct (String.length (trim c) =? 0)%nat; cbn [fst snd];
      [split; done|].
    split; [|intros c' Hc;
             repeat (apply elem_of_cons in Hc as [Hc|Hc]; [discriminate|]);
             by apply elem_of_nil in Hc].
    unfold app_inv in *. cbn. by rewrite Hv in *.
  - destruct (view a) eqn:Hv; cbn [fst snd]; try (split; done).
    split; [done|]. intros c Hc.
    apply elem_of_cons in Hc as [Hc|Hc]; [|by apply elem_of_nil in Hc].
    injection Hc as ->. unfold app_inv in Hinv. by rewrite Hv in Hinv.
  - destruct (view a) eqn:Hv; cbn [fst snd]; try (split; done).
Qed.

Lemma app_run_inv es : ∀ seen a,
  app_inv seen a →
  app_inv (seen ++ es)%list (app_run es a).1 ∧
  ∀ c, ReqEndSession c ∈ (app_run es a).2 →
       GotSessionCreated c ∈ (seen ++ es)%list.
Proof.
  induction es as [|e es IH]; intros seen a Hinv; cbn [app_run].
  - rewrite app_nil_r. split; [done|].
    intros c Hc. by apply elem_of_nil in Hc.
  - destruct (app_step_inv seen e a Hinv) as [Hinv1 Hout1].
    destruct (app_step e a) as [a1 out1]. cbn [fst snd] in *.
    destruct (IH (seen ++ [e])%list a1 Hinv1) as [Hinv2 Hout2].
    destruct (app_run es a1) as [a2 out2]. cbn [fst snd] in *.
    rewrite <- app_assoc in Hinv2, Hout2. cbn [Datatypes.app] in Hinv2, Hout2.
    split; [done|]. intros c [Hc|Hc]%elem_of_app.
    + apply elem_of_app. left. by apply Hout1.
    + by apply Hout2.
Qed.

(** X20. Whatever the server sends and the user does, [App] shows the join
    page only with an empty stored code, the teacher view only with a code
    it was given in a [sessionCreated] message, and the student view only
    with a code it was given in a [joinedSession] message; and it asks the
    server to end only sessions whose code it was given in a
    [sessionCreated] message. *)
Theorem app_codes_from_server (es : list app_event) :
  app_inv es (app_run es app_init).1 ∧
  ∀ c, ReqEndSession c ∈ (app_run es app_init).2 →
       GotSessionCreated c ∈ es.
Proof. by apply (app_run_inv es [] app_init). Qed.

(** X21. For an aggregate whose four counters add up to its [total], as
    the server sends them: the counts shown in the chart add up to
    [total], every slice shows a count above 0, and the chart has no slice
    exactly when [total] is 0, the case in which [TeacherView] shows the
    waiting message instead of the chart. *)
Theorem chartData_balanced (agg : gmap string jsnum) :
  balanced agg →
  ∃ t, agg !! "total" = Some (Num t) ∧
       chart_sum (chartData agg) = t ∧
       (chartData agg = [] ↔ t = 0) ∧
       Forall (λ d, ∃ n, value d = Some (Num (S n))) (chartData agg).
Proof.
  intros (g & n & cf & l & t & Hg & Hn & Hcf & Hl & Ht & Hsum).
  exists t. split; [done|]. unfold chartData. cbn [fmap list_fmap].
  rewrite Hg, Hn, Hcf, Hl. rewrite !filter_cons, filter_nil. cbn [value].
  destruct g, n, cf, l; cbn; subst t;
    rewrite ?(decide_True (P := true = true)) by done;
    rewrite ?(decide_False (P := false = true)) by done;
    cbn;
    (split_and!; [lia| split; intros; first [done|lia] |
       repeat (constructor; [by eexists|]); constructor]).
Qed.

Lemma chartData_balanced_witness :
  ∃ agg t, getAggregate "AB23CD" ex_state = Some agg ∧ balanced agg ∧
    agg !! "total" = Some (Num t) ∧ chart_sum (chartData agg) = t.
Proof.
  assert (Hb : ∃ agg, getAggregate "AB23CD" ex_state = Some agg ∧
                      balanced agg).
  { eexists. split; [reflexivity|].
    exists 0, 1, 0, 0, 1. split_and!; reflexivity. }
  destruct Hb as (agg & Hagg & Hb).
  destruct (chartData_balanced agg Hb) as (t & Ht & Hsum & _).
  exists agg, t. split_and!; assumption.
Defined.

End ClientExtra.
